(** * OOPexam2: a 52-card deck, its cards and the duplicate-card guard

    Shallow embedding of [OOPexam2.py].  Python objects that are mutated in
    place (the list held by a [Deck], the copies handed out by [Deck.cards])
    live in a store of list objects addressed by locations; every method is a
    computation over that store which either returns or raises. *)

From stdpp Require Import base gmap sets list strings.
From Stdlib Require Import ZArith Lia Ascii.

Local Open Scope Z_scope.

(** ** Enumerations ([class CardSuit(Enum)], [class CardRank(Enum)]) *)

Inductive CardSuit := SPADES | HEARTS | DIAMONDS | CLUBS.

Inductive CardRank :=
  | TWO | THREE | FOUR | FIVE | SIX | SEVEN | EIGHT | NINE | TEN
  | JACK | QUEEN | KING | ACE.

#[global] Instance CardSuit_eq_dec : EqDecision CardSuit.
Proof. solve_decision. Defined.

#[global] Instance CardRank_eq_dec : EqDecision CardRank.
Proof. solve_decision. Defined.

(** [member.value] *)
Definition CardSuit_value (s : CardSuit) : Z :=
  match s with SPADES => 1 | HEARTS => 2 | DIAMONDS => 3 | CLUBS => 4 end.

Definition CardRank_value (r : CardRank) : Z :=
  match r with
  | TWO => 2 | THREE => 3 | FOUR => 4 | FIVE => 5 | SIX => 6 | SEVEN => 7
  | EIGHT => 8 | NINE => 9 | TEN => 10 | JACK => 11 | QUEEN => 12
  | KING => 13 | ACE => 14
  end.

(** [member.name] *)
Definition CardSuit_name (s : CardSuit) : string :=
  match s with
  | SPADES => "SPADES" | HEARTS => "HEARTS"
  | DIAMONDS => "DIAMONDS" | CLUBS => "CLUBS"
  end.

Definition CardRank_name (r : CardRank) : string :=
  match r with
  | TWO => "TWO" | THREE => "THREE" | FOUR => "FOUR" | FIVE => "FIVE"
  | SIX => "SIX" | SEVEN => "SEVEN" | EIGHT => "EIGHT" | NINE => "NINE"
  | TEN => "TEN" | JACK => "JACK" | QUEEN => "QUEEN" | KING => "KING"
  | ACE => "ACE"
  end.

(** Iterating over an [Enum] class yields its members in definition order. *)
Definition CardSuit_members : list CardSuit := [SPADES; HEARTS; DIAMONDS; CLUBS].

Definition CardRank_members : list CardRank :=
  [TWO; THREE; FOUR; FIVE; SIX; SEVEN; EIGHT; NINE; TEN; JACK; QUEEN; KING; ACE].

(** ** Python values and objects *)

(** Locations of list objects in the store. *)
Abbreviation loc := positive.

(** [Card.__init__] stores its two arguments in [_suit] and [_rank]; no
    method of the class assigns them again. *)
Record Card := mkCard { _suit : CardSuit; _rank : CardRank }.

#[global] Instance Card_eq_dec : EqDecision Card.
Proof. solve_decision. Defined.

(** A [Deck] object holds a reference to its list; [_cards] is assigned once,
    in [__init__], so the object is identified with that reference. *)
Record Deck := mkDeck { _cards : loc }.

#[global] Instance Deck_eq_dec : EqDecision Deck.
Proof. solve_decision. Defined.

(** The values a caller can hand to a comparison or get back from a wrapped
    function. *)
Inductive PyObj :=
  | PyNone
  | PyInt (z : Z)
  | PyCard (c : Card)
  | PyDeck (d : Deck).

(** Result of a rich-comparison method: a boolean, or the [NotImplemented]
    singleton. *)
Inductive Cmp := NotImplemented | CmpBool (b : bool).

Inductive PyExc :=
  | IndexError (msg : string)
  | OverflowError (msg : string)
  | TypeError
  | DeckCheatingError (msg : string).

(** ** [str.title] on ASCII text *)

Definition is_upper (a : ascii) : bool :=
  let n := nat_of_ascii a in (65 <=? n)%nat && (n <=? 90)%nat.

Definition is_lower (a : ascii) : bool :=
  let n := nat_of_ascii a in (97 <=? n)%nat && (n <=? 122)%nat.

Definition to_upper (a : ascii) : ascii :=
  if is_lower a then ascii_of_nat (nat_of_ascii a - 32) else a.

Definition to_lower (a : ascii) : ascii :=
  if is_upper a then ascii_of_nat (nat_of_ascii a + 32) else a.

(** [prev_cased] tells whether the previous character was a letter: a letter
    that follows a letter is lower-cased, any other letter is upper-cased. *)
Fixpoint title_from (prev_cased : bool) (s : string) : string :=
  match s with
  | EmptyString => EmptyString
  | String a rest =>
      let cased := is_upper a || is_lower a in
      String (if prev_cased then to_lower a else to_upper a)
             (title_from cased rest)
  end.

Definition str_title (s : string) : string := title_from false s.

(** ** class Card *)

Definition Card_suit (self : Card) : CardSuit := _suit self.
Definition Card_rank (self : Card) : CardRank := _rank self.

Definition Card_get_display_name (self : Card) : string :=
  str_title (CardRank_name (_rank self)) +:+ " of " +:+
  str_title (CardSuit_name (_suit self)).

Definition Card___eq__ (self : Card) (other : PyObj) : Cmp :=
  match other with
  | PyCard other =>
      CmpBool (bool_decide (_rank self = _rank other)
               && bool_decide (_suit self = _suit other))
  | _ => NotImplemented
  end.

Definition Card___lt__ (self : Card) (other : PyObj) : Cmp :=
  match other with
  | PyCard other =>
      if negb (CardRank_value (_rank self) =? CardRank_value (_rank other))
      then CmpBool (CardRank_value (_rank self) <? CardRank_value (_rank other))
      else CmpBool (CardSuit_value (_suit self) <? CardSuit_value (_suit other))
  | _ => NotImplemented
  end.

Definition Card___gt__ (self : Card) (other : PyObj) : Cmp :=
  match other with
  | PyCard other =>
      if negb (CardRank_value (_rank self) =? CardRank_value (_rank other))
      then CmpBool (CardRank_value (_rank self) >? CardRank_value (_rank other))
      else CmpBool (CardSuit_value (_suit self) >? CardSuit_value (_suit other))
  | _ => NotImplemented
  end.

Definition Card___str__ (self : Card) : string := Card_get_display_name self.

Definition Card___repr__ (self : Card) : string :=
  "Card(suit=" +:+ CardSuit_name (_suit self) +:+ ", rank=" +:+
  CardRank_name (_rank self) +:+ ")".

(** [hash((self._suit, self._rank))]: the hash of a tuple of two enumeration
    members is fixed for the life of the interpreter but differs from run to
    run, so it is an interface the development is parametric in. *)
Class PyHash := tuple_hash : CardSuit * CardRank -> Z.

Definition Card___hash__ `{PyHash} (self : Card) : Z :=
  tuple_hash (_suit self, _rank self).

(** ** The operators [==], [<] and [>]

    The interpreter first asks the left operand's method, then the right
    operand's reflected method, and falls back (identity for [==], a
    [TypeError] for an ordering) when both answer [NotImplemented]. *)

Inductive cmpop := OpEq | OpLt | OpGt.

Definition reflected (op : cmpop) : cmpop :=
  match op with OpEq => OpEq | OpLt => OpGt | OpGt => OpLt end.

(** The comparison methods of each type: [Card]'s are the ones above, [int]
    compares with [int] only, [None] and [Deck] inherit [object]'s methods
    (equal to itself, no ordering). *)
Definition type_richcmp (op : cmpop) (self other : PyObj) : Cmp :=
  match self with
  | PyCard c =>
      match op with
      | OpEq => Card___eq__ c other
      | OpLt => Card___lt__ c other
      | OpGt => Card___gt__ c other
      end
  | PyInt z =>
      match other with
      | PyInt z' =>
          CmpBool (match op with
                   | OpEq => z =? z' | OpLt => z <? z' | OpGt => z >? z'
                   end)
      | _ => NotImplemented
      end
  | PyNone =>
      match op, other with
      | OpEq, PyNone => CmpBool true
      | _, _ => NotImplemented
      end
  | PyDeck d =>
      match op, other with
      | OpEq, PyDeck d' =>
          if decide (d = d') then CmpBool true else NotImplemented
      | _, _ => NotImplemented
      end
  end.

Inductive outcome (A : Type) :=
  | Ret (a : A)          (* normal return *)
  | Raise (e : PyExc)    (* an exception propagates *)
  | Dangling.            (* a location without a list object: no Python
                            program reaches this *)
Arguments Ret {A} a.
Arguments Raise {A} e.
Arguments Dangling {A}.

(** When both methods decline, [==] compares identities; two operands that
    are the same object never get that far (their [__eq__] answers), so the
    fallback is [False]. *)
Definition do_richcompare (op : cmpop) (a b : PyObj) : outcome bool :=
  match type_richcmp op a b with
  | CmpBool r => Ret r
  | NotImplemented =>
      match type_richcmp (reflected op) b a with
      | CmpBool r => Ret r
      | NotImplemented =>
          match op with
          | OpEq => Ret false
          | OpLt | OpGt => Raise TypeError
          end
      end
  end.

(** ** The store and the monad of methods *)

Record state := mkState {
  heap : gmap loc (list Card);   (* the list objects *)
  rng : nat -> nat               (* the raw draws [random] has still to make *)
}.

Definition M (A : Type) : Type := state -> outcome A * state.

Definition ret {A} (a : A) : M A := fun σ => (Ret a, σ).

Definition raise {A} (e : PyExc) : M A := fun σ => (Raise e, σ).

Definition bind {A B} (m : M A) (k : A -> M B) : M B :=
  fun σ =>
    match m σ with
    | (Ret a, σ') => k a σ'
    | (Raise e, σ') => (Raise e, σ')
    | (Dangling, σ') => (Dangling, σ')
    end.

Definition lift {A} (o : outcome A) : M A := fun σ => (o, σ).

Notation "'do' x <- m ;; k" := (bind m (fun x => k))
  (at level 10, x name, m at level 99, k at level 200).
Notation "'run' m ;; k" := (bind m (fun _ => k))
  (at level 10, m at level 99, k at level 200).

(** ** Python [list] objects *)

Definition list_new (l : list Card) : M loc :=
  fun σ =>
    let p := fresh (dom (heap σ)) in
    (Ret p, mkState (<[p:=l]> (heap σ)) (rng σ)).

Definition list_read (p : loc) : M (list Card) :=
  fun σ =>
    match heap σ !! p with
    | Some l => (Ret l, σ)
    | None => (Dangling, σ)
    end.

Definition list_write (p : loc) (l : list Card) : M unit :=
  fun σ => (Ret tt, mkState (<[p:=l]> (heap σ)) (rng σ)).

(** An index counts from the back when it is negative; [None] when it falls
    outside the list either way. *)
Definition norm_index (n : nat) (index : Z) : option nat :=
  let i := if index <? 0 then index + Z.of_nat n else index in
  if (i <? 0) || (Z.of_nat n <=? i) then None else Some (Z.to_nat i).

(** Before it looks at the list, the interpreter converts the index to a
    signed machine word (64 bits).  A list never holds more items than such
    a word counts, so an index that does not fit is out of range in any
    case, and the conversion shows only in the exception that is raised:
    indexing and item assignment raise an [IndexError] of their own, [pop]
    an [OverflowError]. *)
Definition fits_ssize_t (index : Z) : bool :=
  (- 2 ^ 63 <=? index) && (index <? 2 ^ 63).

Definition index_error (index : Z) (msg : string) : PyExc :=
  if fits_ssize_t index then IndexError msg
  else IndexError "cannot fit 'int' into an index-sized integer".

Definition pop_error (index : Z) (msg : string) : PyExc :=
  if fits_ssize_t index then IndexError msg
  else OverflowError "Python int too large to convert to C ssize_t".

Definition list___len__ (p : loc) : M nat :=
  do l <- list_read p ;; ret (length l).

Definition list___bool__ (p : loc) : M bool :=
  do l <- list_read p ;; ret (negb (length l =? 0)%nat).

Definition list___getitem__ (p : loc) (index : Z) : M Card :=
  do l <- list_read p ;;
  match norm_index (length l) index with
  | Some i =>
      match l !! i with
      | Some c => ret c
      | None => raise (IndexError "list index out of range")
      end
  | None => raise (index_error index "list index out of range")
  end.

Definition list___setitem__ (p : loc) (index : Z) (c : Card) : M unit :=
  do l <- list_read p ;;
  match norm_index (length l) index with
  | Some i => list_write p (<[i:=c]> l)
  | None => raise (index_error index "list assignment index out of range")
  end.

Definition list_copy (p : loc) : M loc :=
  do l <- list_read p ;; list_new l.

Definition list_append (p : loc) (c : Card) : M unit :=
  do l <- list_read p ;; list_write p (l ++ [c]).

Definition list_pop (p : loc) (index : Z) : M Card :=
  do l <- list_read p ;;
  match l with
  | [] => raise (pop_error index "pop from empty list")
  | _ =>
      match norm_index (length l) index with
      | Some i =>
          match l !! i with
          | Some c => run list_write p (delete i l) ;; ret c
          | None => raise (IndexError "pop index out of range")
          end
      | None => raise (pop_error index "pop index out of range")
      end
  end.

(** ** [random.shuffle]

    The library routine walks [i] from [len(x) - 1] down to [1], draws
    [j = randbelow(i + 1)] and runs [x[i], x[j] = x[j], x[i]]. *)

Definition randbelow (n : nat) : M nat :=
  fun σ => (Ret (rng σ 0%nat `mod` n)%nat,
            mkState (heap σ) (fun k => rng σ (S k))).

Fixpoint shuffle_loop (x : loc) (i : nat) : M unit :=
  match i with
  | O => ret tt
  | S i' =>
      do j <- randbelow (S i) ;;
      do xj <- list___getitem__ x (Z.of_nat j) ;;
      do xi <- list___getitem__ x (Z.of_nat i) ;;
      run list___setitem__ x (Z.of_nat i) xj ;;
      run list___setitem__ x (Z.of_nat j) xi ;;
      shuffle_loop x i'
  end.

Definition random_shuffle (x : loc) : M unit :=
  do n <- list___len__ x ;; shuffle_loop x (n - 1)%nat.

(** ** The built-ins [max] and [min] with [default=None]

    Both keep the first item and replace it by a later one that compares
    [>] (for [max]) or [<] (for [min]) to it. *)

Fixpoint min_max_loop (op : cmpop) (best : Card) (items : list Card)
  : outcome Card :=
  match items with
  | [] => Ret best
  | item :: rest =>
      match do_richcompare op (PyCard item) (PyCard best) with
      | Ret true => min_max_loop op item rest
      | Ret false => min_max_loop op best rest
      | Raise e => Raise e
      | Dangling => Dangling
      end
  end.

Definition min_max (op : cmpop) (items : list Card) : outcome (option Card) :=
  match items with
  | [] => Ret None
  | first :: rest =>
      match min_max_loop op first rest with
      | Ret c => Ret (Some c)
      | Raise e => Raise e
      | Dangling => Dangling
      end
  end.

Definition builtin_max (items : list Card) : outcome (option Card) :=
  min_max OpGt items.

Definition builtin_min (items : list Card) : outcome (option Card) :=
  min_max OpLt items.

(** ** class Deck *)

(** The comprehension of [_generate_full_deck]. *)
Definition full_deck : list Card :=
  flat_map (fun suit => map (fun rank => mkCard suit rank) CardRank_members)
           CardSuit_members.

Definition Deck__generate_full_deck : M loc := list_new full_deck.

Definition Deck_shuffle (self : Deck) : M unit :=
  random_shuffle (_cards self).

Definition Deck___init__ (shuffle : bool) : M Deck :=
  do p <- Deck__generate_full_deck ;;
  let self := mkDeck p in
  if shuffle then run Deck_shuffle self ;; ret self else ret self.

Definition Deck_cards (self : Deck) : M loc := list_copy (_cards self).

Definition Deck_draw (self : Deck) : M (option Card) :=
  do nonempty <- list___bool__ (_cards self) ;;
  if nonempty
  then do c <- list_pop (_cards self) 0 ;; ret (Some c)
  else ret None.

Definition Deck_add_card (self : Deck) (card : Card) : M unit :=
  list_append (_cards self) card.

Definition Deck___len__ (self : Deck) : M nat := list___len__ (_cards self).

Definition Deck___getitem__ (self : Deck) (index : Z) : M Card :=
  list___getitem__ (_cards self) index.

(** The items a [for] loop over the deck visits when its body leaves the
    deck alone. *)
Definition Deck___iter__ (self : Deck) : M (list Card) :=
  list_read (_cards self).

Definition Deck_max (self : Deck) : M (option Card) :=
  do l <- list_read (_cards self) ;; lift (builtin_max l).

Definition Deck_min (self : Deck) : M (option Card) :=
  do l <- list_read (_cards self) ;; lift (builtin_min l).

(** ** The [set] of cards seen

    A set finds a key by its hash and then by [==] against the stored key;
    the stored keys are kept in insertion order. *)

Definition pyset := list Card.

Definition set___contains__ `{PyHash} (s : pyset) (key : Card) : bool :=
  existsb (fun stored =>
             (Card___hash__ stored =? Card___hash__ key)
             && match do_richcompare OpEq (PyCard stored) (PyCard key) with
                | Ret b => b
                | _ => false
                end) s.

Definition set_add `{PyHash} (s : pyset) (key : Card) : pyset :=
  if set___contains__ s key then s else s ++ [key].

(** ** [fair_deck] *)

Definition cheating_message (card : Card) : string :=
  "Cheating detected: duplicate card " +:+ Card___str__ card.

(** The [for card in result] loop, with [seen] carried along. *)
Fixpoint fair_deck_loop `{PyHash} (seen : pyset) (cards : list Card) : M unit :=
  match cards with
  | [] => ret tt
  | card :: rest =>
      if set___contains__ seen card
      then raise (DeckCheatingError (cheating_message card))
      else fair_deck_loop (set_add seen card) rest
  end.

Definition fair_deck `{PyHash} {Args : Type} (func : Args -> M PyObj)
  : Args -> M PyObj :=
  fun args =>
    do result <- func args ;;
    match result with
    | PyDeck d =>
        do cards <- Deck___iter__ d ;;
        run fair_deck_loop [] cards ;;
        ret result
    | _ => ret result
    end.

(** ** What a caller can do to a list it holds

    Every in-place operation of a list replaces the items of that one list
    object: [append], [pop], item assignment, and ([op_assign]) the rest of
    them, such as [clear], [sort], [extend] or a slice assignment. *)

Inductive list_op :=
  | op_append (c : Card)
  | op_pop (index : Z)
  | op_setitem (index : Z) (c : Card)
  | op_assign (items : list Card).

(** The store after the operation, whether it returned or raised. *)
Definition run_list_op (p : loc) (o : list_op) (σ : state) : state :=
  match o with
  | op_append c => snd (list_append p c σ)
  | op_pop index => snd (list_pop p index σ)
  | op_setitem index c => snd (list___setitem__ p index c σ)
  | op_assign items => snd (list_write p items σ)
  end.

(** ** Successive draws

    [k] calls of [draw()] one after the other, with what each returned. *)

Fixpoint Deck_draw_times (self : Deck) (k : nat) : M (list (option Card)) :=
  match k with
  | O => ret []
  | S k' =>
      do c <- Deck_draw self ;;
      do later <- Deck_draw_times self k' ;;
      ret (c :: later)
  end.

(** ** Sample inputs *)

(** One possible hash of a (suit, rank) tuple. *)
Definition sample_hash : PyHash :=
  fun key => 31 * CardSuit_value (fst key) + CardRank_value (snd key).

Definition empty_store : state := mkState ∅ (fun k => (7 * k + 3)%nat).

(** A deck-producing function that slips a second Ace of Spades into a new
    deck. *)
Definition stacked_deck (_ : unit) : M PyObj :=
  do deck <- Deck___init__ false ;;
  run Deck_add_card deck (mkCard SPADES ACE) ;;
  ret (PyDeck deck).

(** Deck-producing functions of the kind [fair_deck] is written for:
    [def new_deck(shuffle): return Deck(shuffle)] and
    [def add_to_deck(deck, card): deck.add_card(card); return deck]. *)
Definition new_deck (shuffle : bool) : M PyObj :=
  do deck <- Deck___init__ shuffle ;; ret (PyDeck deck).

Definition add_to_deck (args : Deck * Card) : M PyObj :=
  run Deck_add_card (fst args) (snd args) ;; ret (PyDeck (fst args)).

(** ** Vocabulary of the statements *)

(** [a < b], [a == b] and [a > b] evaluate to [True]. *)
Definition card_lt (a b : Card) : Prop :=
  do_richcompare OpLt (PyCard a) (PyCard b) = Ret true.

Definition card_eq (a b : Card) : Prop :=
  do_richcompare OpEq (PyCard a) (PyCard b) = Ret true.

Definition card_gt (a b : Card) : Prop :=
  do_richcompare OpGt (PyCard a) (PyCard b) = Ret true.

(** Exactly one of three propositions holds. *)
Definition exactly_one (P Q R : Prop) : Prop :=
  (P /\ ~ Q /\ ~ R) \/ (~ P /\ Q /\ ~ R) \/ (~ P /\ ~ Q /\ R).

(** Two positions of the list hold cards of the same suit and rank. *)
Definition has_duplicate (l : list Card) : Prop :=
  exists (i j : nat) (a b : Card),
    i ≠ j /\ l !! i = Some a /\ l !! j = Some b /\
    _suit a = _suit b /\ _rank a = _rank b.

(** The position of a card in the order of the comparisons: rank first, suit
    as the tie-break (suit values stay below 8). *)
Definition card_key (c : Card) : Z :=
  8 * CardRank_value (_rank c) + CardSuit_value (_suit c).

(** * Properties *)

(** ** Cards *)

Lemma CardSuit_value_range s : 1 <= CardSuit_value s <= 4.
Proof. destruct s; simpl; lia. Qed.

Lemma CardRank_value_range r : 2 <= CardRank_value r <= 14.
Proof. destruct r; simpl; lia. Qed.

Lemma CardSuit_value_inj s1 s2 : CardSuit_value s1 = CardSuit_value s2 -> s1 = s2.
Proof. destruct s1, s2; simpl; intros; first [reflexivity | lia]. Qed.

Lemma CardRank_value_inj r1 r2 : CardRank_value r1 = CardRank_value r2 -> r1 = r2.
Proof. destruct r1, r2; simpl; intros; first [reflexivity | lia]. Qed.

Lemma card_key_inj a b : card_key a = card_key b -> a = b.
Proof.
  destruct a as [sa ra], b as [sb rb]. unfold card_key; simpl. intros Hk.
  pose proof (CardSuit_value_range sa). pose proof (CardSuit_value_range sb).
  assert (CardRank_value ra = CardRank_value rb) as Hr by lia.
  assert (CardSuit_value sa = CardSuit_value sb) as Hs by lia.
  apply CardRank_value_inj in Hr. apply CardSuit_value_inj in Hs. congruence.
Qed.

Lemma card_lt_key a b : card_lt a b <-> card_key a < card_key b.
Proof.
  unfold card_lt, do_richcompare, card_key; simpl.
  pose proof (CardSuit_value_range (_suit a)).
  pose proof (CardSuit_value_range (_suit b)).
  destruct (Z.eqb_spec (CardRank_value (_rank a)) (CardRank_value (_rank b)));
    simpl; split; intros Hlt.
  - injection Hlt as Hlt. apply Z.ltb_lt in Hlt. lia.
  - f_equal. apply Z.ltb_lt. lia.
  - injection Hlt as Hlt. apply Z.ltb_lt in Hlt. lia.
  - f_equal. apply Z.ltb_lt. lia.
Qed.

Lemma card_gt_key a b : card_gt a b <-> card_key b < card_key a.
Proof.
  unfold card_gt, do_richcompare, card_key; simpl.
  pose proof (CardSuit_value_range (_suit a)).
  pose proof (CardSuit_value_range (_suit b)).
  destruct (Z.eqb_spec (CardRank_value (_rank a)) (CardRank_value (_rank b)));
    simpl; split; intros Hgt.
  - injection Hgt as Hgt. apply Z.gtb_gt in Hgt. lia.
  - f_equal. apply Z.gtb_gt. lia.
  - injection Hgt as Hgt. apply Z.gtb_gt in Hgt. lia.
  - f_equal. apply Z.gtb_gt. lia.
Qed.

Lemma card_eq_iff a b : card_eq a b <-> a = b.
Proof.
  unfold card_eq, do_richcompare; simpl. destruct a as [sa ra], b as [sb rb]; simpl.
  split.
  - intros Heq. injection Heq as Heq.
    apply andb_true_iff in Heq as [Hr Hs].
    apply bool_decide_eq_true in Hr, Hs. congruence.
  - intros [= -> ->]. by rewrite !bool_decide_eq_true_2.
Qed.

Example Card_str_ace_of_spades :
  Card___str__ (mkCard SPADES ACE) = "Ace of Spades"%string.
Proof. reflexivity. Qed.

Example Card_repr_king_of_hearts :
  Card___repr__ (mkCard HEARTS KING) = "Card(suit=HEARTS, rank=KING)"%string.
Proof. reflexivity. Qed.

(** [c2 > c1] of [main]: the King of Hearts is not above the Ace of Spades. *)
Example king_of_hearts_not_gt_ace_of_spades :
  do_richcompare OpGt (PyCard (mkCard HEARTS KING)) (PyCard (mkCard SPADES ACE))
  = Ret false.
Proof. reflexivity. Qed.

(** Between two cards every comparison answers with a boolean. *)
Lemma do_richcompare_cards op a b :
  exists r, do_richcompare op (PyCard a) (PyCard b) = Ret r.
Proof.
  unfold do_richcompare. destruct op; simpl; try (eexists; reflexivity);
    destruct (negb _); eexists; reflexivity.
Qed.

(** C2: [Card(s1, r1) == Card(s2, r2)] is answered by [Card.__eq__] with a
    boolean, and that boolean is [True] if and only if [s1 = s2] and
    [r1 = r2]. *)
Theorem Card_eq_same_suit_and_rank (s1 s2 : CardSuit) (r1 r2 : CardRank) :
  exists b : bool,
    Card___eq__ (mkCard s1 r1) (PyCard (mkCard s2 r2)) = CmpBool b /\
    do_richcompare OpEq (PyCard (mkCard s1 r1)) (PyCard (mkCard s2 r2)) = Ret b /\
    (b = true <-> s1 = s2 /\ r1 = r2).
Proof.
  exists (bool_decide (r1 = r2) && bool_decide (s1 = s2)).
  split; [reflexivity | split; [reflexivity |]].
  rewrite andb_true_iff, !bool_decide_eq_true. tauto.
Qed.

(** C3: the comparisons of [Card] (rank value first, suit value as the
    tie-break) form a total order: for all cards [a], [b] exactly one of
    [a < b], [a == b], [a > b] holds, and [<] and [>] are transitive. *)
Theorem Card_total_order (a b c : Card) :
  exactly_one (card_lt a b) (card_eq a b) (card_gt a b) /\
  (card_lt a b -> card_lt b c -> card_lt a c) /\
  (card_gt a b -> card_gt b c -> card_gt a c).
Proof.
  unfold exactly_one.
  rewrite !card_lt_key, !card_gt_key, card_eq_iff.
  pose proof (card_key_inj a b) as Hinj.
  assert (a = b -> card_key a = card_key b) as Hcongr by (intros ->; reflexivity).
  repeat split; try lia.
  destruct (Z.lt_trichotomy (card_key a) (card_key b)) as [Hlt | [Heq | Hgt]].
  - left. repeat split; [lia | | lia]. intros Hab. apply Hcongr in Hab. lia.
  - right; left. repeat split; [lia | auto | lia].
  - right; right. repeat split; [lia | | lia]. intros Hab. apply Hcongr in Hab. lia.
Qed.

Lemma Card_total_order_witness :
  card_lt (mkCard CLUBS TWO) (mkCard SPADES ACE).
Proof.
  apply (proj1 (proj2 (Card_total_order (mkCard CLUBS TWO) (mkCard SPADES THREE)
                                        (mkCard SPADES ACE)))); reflexivity.
Defined.

(** ** List objects in the store *)

Lemma norm_index_nonneg (n : nat) (index : Z) :
  0 <= index < Z.of_nat n -> norm_index n index = Some (Z.to_nat index).
Proof.
  intros Hi. unfold norm_index.
  destruct (Z.ltb_spec index 0); [lia |].
  destruct (Z.ltb_spec index 0); [lia |].
  destruct (Z.leb_spec (Z.of_nat n) index); [lia | reflexivity].
Qed.

Lemma norm_index_negative (n : nat) (index : Z) :
  - Z.of_nat n <= index < 0 ->
  norm_index n index = Some (Z.to_nat (Z.of_nat n + index)).
Proof.
  intros Hi. unfold norm_index.
  destruct (Z.ltb_spec index 0); [| lia].
  destruct (Z.ltb_spec (index + Z.of_nat n) 0); [lia |].
  destruct (Z.leb_spec (Z.of_nat n) (index + Z.of_nat n)); [lia |].
  simpl. do 2 f_equal. lia.
Qed.

Lemma norm_index_outside (n : nat) (index : Z) :
  index < - Z.of_nat n \/ Z.of_nat n <= index -> norm_index n index = None.
Proof.
  intros Hi. unfold norm_index.
  destruct (Z.ltb_spec index 0).
  - destruct (Z.ltb_spec (index + Z.of_nat n) 0); [reflexivity | lia].
  - destruct (Z.ltb_spec index 0); [lia |].
    destruct (Z.leb_spec (Z.of_nat n) index); [reflexivity | lia].
Qed.

Lemma norm_index_of_nat (n i : nat) :
  (i < n)%nat -> norm_index n (Z.of_nat i) = Some i.
Proof.
  intros Hi. rewrite norm_index_nonneg by lia. by rewrite Nat2Z.id.
Qed.

Lemma list_read_Some (p : loc) (σ : state) (l : list Card) :
  heap σ !! p = Some l -> list_read p σ = (Ret l, σ).
Proof. intros Hp. unfold list_read. by rewrite Hp. Qed.

Lemma list___len___Some (p : loc) (σ : state) (l : list Card) :
  heap σ !! p = Some l -> list___len__ p σ = (Ret (length l), σ).
Proof.
  intros Hp. unfold list___len__, bind. by rewrite (list_read_Some _ _ _ Hp).
Qed.

Lemma list___getitem___Some (p : loc) (σ : state) (l : list Card) index i c :
  heap σ !! p = Some l -> norm_index (length l) index = Some i ->
  l !! i = Some c ->
  list___getitem__ p index σ = (Ret c, σ).
Proof.
  intros Hp Hi Hc. unfold list___getitem__, bind.
  by rewrite (list_read_Some _ _ _ Hp), Hi, Hc.
Qed.

Lemma list___getitem___outside (p : loc) (σ : state) (l : list Card) index :
  heap σ !! p = Some l -> norm_index (length l) index = None ->
  list___getitem__ p index σ
  = (Raise (index_error index "list index out of range"), σ).
Proof.
  intros Hp Hi. unfold list___getitem__, bind.
  by rewrite (list_read_Some _ _ _ Hp), Hi.
Qed.

Lemma list___setitem___Some (p : loc) (σ : state) (l : list Card) index i c :
  heap σ !! p = Some l -> norm_index (length l) index = Some i ->
  list___setitem__ p index c σ
  = (Ret tt, mkState (<[p := <[i:=c]> l]> (heap σ)) (rng σ)).
Proof.
  intros Hp Hi. unfold list___setitem__, bind.
  by rewrite (list_read_Some _ _ _ Hp), Hi.
Qed.

(** ** [Deck.draw] *)

Lemma Deck_draw_cons (self : Deck) (σ : state) (c : Card) (rest : list Card) :
  heap σ !! _cards self = Some (c :: rest) ->
  Deck_draw self σ
  = (Ret (Some c), mkState (<[_cards self := rest]> (heap σ)) (rng σ)).
Proof.
  intros Hp. unfold Deck_draw, list___bool__, list_pop, bind.
  rewrite (list_read_Some _ _ _ Hp). simpl.
  rewrite (list_read_Some _ _ _ Hp).
  rewrite norm_index_nonneg by (simpl; lia). reflexivity.
Qed.

Lemma Deck_draw_nil (self : Deck) (σ : state) :
  heap σ !! _cards self = Some [] -> Deck_draw self σ = (Ret None, σ).
Proof.
  intros Hp. unfold Deck_draw, list___bool__, bind.
  by rewrite (list_read_Some _ _ _ Hp).
Qed.

(** C4: on a deck of length [n >= 1], [draw()] returns the front card and
    leaves the other [n - 1] cards in their order (nothing else in the store
    changes); on an empty deck it returns [None], raises nothing and leaves
    the store as it was. *)
Theorem Deck_draw_front (self : Deck) (σ : state) (l : list Card) :
  heap σ !! _cards self = Some l ->
  match l with
  | c :: rest =>
      Deck_draw self σ
      = (Ret (Some c), mkState (<[_cards self := rest]> (heap σ)) (rng σ))
      /\ l !! 0%nat = Some c
      /\ rest = drop 1 l
      /\ length rest = (length l - 1)%nat
  | [] => Deck_draw self σ = (Ret None, σ)
  end.
Proof.
  intros Hp. destruct l as [| c rest].
  - by apply Deck_draw_nil.
  - split; [by apply Deck_draw_cons |]. simpl. repeat split. lia.
Qed.

Lemma Deck_draw_front_witness :
  let σ := mkState {[ 1%positive := [mkCard HEARTS KING; mkCard SPADES ACE] ]}
                   (fun _ => 0%nat) in
  Deck_draw (mkDeck 1) σ
  = (Ret (Some (mkCard HEARTS KING)),
     mkState (<[1%positive := [mkCard SPADES ACE]]> (heap σ)) (rng σ)).
Proof.
  intros σ.
  apply (Deck_draw_front (mkDeck 1) σ [mkCard HEARTS KING; mkCard SPADES ACE]).
  reflexivity.
Defined.

(** ** Indexing *)

Lemma Deck_getitem_from_back (self : Deck) (σ : state) (l : list Card) (index : Z) :
  heap σ !! _cards self = Some l ->
  - Z.of_nat (length l) <= index < 0 ->
  exists c : Card,
    l !! Z.to_nat (Z.of_nat (length l) + index) = Some c /\
    Deck___getitem__ self index σ = (Ret c, σ).
Proof.
  intros Hp Hi.
  destruct (lookup_lt_is_Some_2 l (Z.to_nat (Z.of_nat (length l) + index)))
    as [c Hc]; [lia |].
  exists c. split; [exact Hc |].
  unfold Deck___getitem__.
  eapply list___getitem___Some; eauto using norm_index_negative.
Qed.

Lemma Deck_getitem_from_front (self : Deck) (σ : state) (l : list Card) (index : Z) :
  heap σ !! _cards self = Some l ->
  0 <= index < Z.of_nat (length l) ->
  exists c : Card,
    l !! Z.to_nat index = Some c /\
    Deck___getitem__ self index σ = (Ret c, σ).
Proof.
  intros Hp Hi.
  destruct (lookup_lt_is_Some_2 l (Z.to_nat index)) as [c Hc]; [lia |].
  exists c. split; [exact Hc |].
  unfold Deck___getitem__.
  eapply list___getitem___Some; eauto using norm_index_nonneg.
Qed.

(** C10: on a deck of length [n >= 1] and for every index [i] with
    [-n <= i <= -1], [deck[i]] raises nothing and returns the card at
    position [n + i] from the front; the store is unchanged. *)
Theorem Deck_getitem_negative_index
  (self : Deck) (σ : state) (l : list Card) (index : Z) :
  heap σ !! _cards self = Some l ->
  (1 <= length l)%nat ->
  - Z.of_nat (length l) <= index <= -1 ->
  exists c : Card,
    l !! Z.to_nat (Z.of_nat (length l) + index) = Some c /\
    Deck___getitem__ self index σ = (Ret c, σ).
Proof.
  intros Hp _ Hi. eapply Deck_getitem_from_back; eauto. lia.
Qed.

Lemma Deck_getitem_negative_index_witness :
  let σ := mkState {[ 1%positive := [mkCard HEARTS KING; mkCard SPADES ACE] ]}
                   (fun _ => 0%nat) in
  exists c : Card,
    [mkCard HEARTS KING; mkCard SPADES ACE] !! Z.to_nat (Z.of_nat 2 + -1) = Some c /\
    Deck___getitem__ (mkDeck 1) (-1) σ = (Ret c, σ).
Proof.
  intros σ.
  apply (Deck_getitem_negative_index (mkDeck 1) σ
           [mkCard HEARTS KING; mkCard SPADES ACE] (-1)).
  - reflexivity.
  - simpl. lia.
  - simpl. lia.
Defined.

(** ** Construction *)

Lemma full_deck_length : length full_deck = 52%nat.
Proof. reflexivity. Qed.

Lemma full_deck_NoDup : NoDup full_deck.
Proof. apply (bool_decide_unpack _). by vm_compute. Qed.

(** Suit-major, rank-minor: the card of suit [s] and rank [r] sits at
    position [13 * (s.value - 1) + (r.value - 2)]. *)
Lemma full_deck_position (s : CardSuit) (r : CardRank) :
  full_deck !! Z.to_nat (13 * (CardSuit_value s - 1) + (CardRank_value r - 2))
  = Some (mkCard s r).
Proof. destruct s, r; reflexivity. Qed.

Lemma full_deck_complete (c : Card) : c ∈ full_deck.
Proof.
  destruct c as [s r]. eapply list_elem_of_lookup_2, full_deck_position.
Qed.

Lemma Deck_init_unshuffled (σ : state) :
  let p := fresh (dom (heap σ)) in
  Deck___init__ false σ
  = (Ret (mkDeck p), mkState (<[p := full_deck]> (heap σ)) (rng σ)).
Proof. reflexivity. Qed.

(** C1: [Deck(shuffle=False)] holds the comprehension's list: suits in
    enumeration order outside, ranks in enumeration order inside; 52 cards,
    every (suit, rank) pair exactly once, [Card(SPADES, TWO)] in front; the
    first [draw()] returns [Card(SPADES, TWO)] and leaves 51 cards. *)
Theorem Deck_unshuffled_canonical (σ : state) :
  exists (self : Deck) (σ1 σ2 : state) (rest : list Card),
    Deck___init__ false σ = (Ret self, σ1) /\
    heap σ1 !! _cards self = Some full_deck /\
    full_deck
    = flat_map (fun suit => map (mkCard suit) CardRank_members)
               [SPADES; HEARTS; DIAMONDS; CLUBS] /\
    CardRank_members
    = [TWO; THREE; FOUR; FIVE; SIX; SEVEN; EIGHT; NINE; TEN;
       JACK; QUEEN; KING; ACE] /\
    length full_deck = 52%nat /\
    NoDup full_deck /\
    (forall (s : CardSuit) (r : CardRank),
        full_deck !! Z.to_nat (13 * (CardSuit_value s - 1) + (CardRank_value r - 2))
        = Some (mkCard s r)) /\
    full_deck !! 0%nat = Some (mkCard SPADES TWO) /\
    Deck_draw self σ1 = (Ret (Some (mkCard SPADES TWO)), σ2) /\
    heap σ2 !! _cards self = Some rest /\
    Deck___len__ self σ2 = (Ret 51%nat, σ2).
Proof.
  exists (mkDeck (fresh (dom (heap σ)))).
  eexists. eexists. exists (drop 1 full_deck).
  split; [apply Deck_init_unshuffled |].
  assert (heap (mkState (<[fresh (dom (heap σ)) := full_deck]> (heap σ)) (rng σ))
            !! fresh (dom (heap σ)) = Some full_deck) as Hp
    by (simpl; apply lookup_insert_eq).
  split; [exact Hp |].
  split; [reflexivity |].
  split; [reflexivity |].
  split; [apply full_deck_length |].
  split; [apply full_deck_NoDup |].
  split; [apply full_deck_position |].
  split; [reflexivity |].
  split; [apply (Deck_draw_cons _ _ (mkCard SPADES TWO) (drop 1 full_deck)); exact Hp |].
  assert (heap (mkState (<[fresh (dom (heap σ)) := drop 1 full_deck]>
                           (<[fresh (dom (heap σ)) := full_deck]> (heap σ))) (rng σ))
            !! fresh (dom (heap σ)) = Some (drop 1 full_deck)) as Hp'
    by (simpl; apply lookup_insert_eq).
  split; [exact Hp' |].
  apply (list___len___Some _ _ _ Hp').
Qed.

(** ** Shuffling *)

Lemma insert_head_perm (l : list Card) (j : nat) (a b : Card) :
  l !! j = Some b -> b :: <[j:=a]> l ≡ₚ a :: l.
Proof.
  revert j. induction l as [| x l IH]; intros [| j] Hj; simplify_eq/=.
  - apply perm_swap.
  - rewrite (perm_swap x b), (IH j Hj). apply perm_swap.
Qed.

(** The exchange [x[i], x[j] = x[j], x[i]] permutes the list. *)
Lemma exchange_perm (l : list Card) (i j : nat) (xi xj : Card) :
  l !! i = Some xi -> l !! j = Some xj ->
  <[j:=xi]> (<[i:=xj]> l) ≡ₚ l.
Proof.
  revert i j. induction l as [| x l IH]; intros [| i] [| j] Hi Hj; simplify_eq/=.
  - reflexivity.
  - by apply insert_head_perm.
  - by apply insert_head_perm.
  - f_equiv. by apply IH.
Qed.

Lemma state_insert_id (σ : state) (p : loc) (l : list Card) :
  heap σ !! p = Some l -> mkState (<[p:=l]> (heap σ)) (rng σ) = σ.
Proof. intros Hp. destruct σ; simpl in *. by rewrite insert_id. Qed.

Lemma shuffle_loop_perm (x : loc) (i : nat) :
  forall (σ : state) (l : list Card),
    heap σ !! x = Some l -> (i <= length l - 1)%nat ->
    exists (l' : list Card) (g : nat -> nat),
      shuffle_loop x i σ = (Ret tt, mkState (<[x:=l']> (heap σ)) g) /\ l' ≡ₚ l.
Proof.
  induction i as [| i IH]; intros σ l Hp Hi.
  - exists l, (rng σ). split; [| reflexivity].
    simpl. unfold ret. by rewrite state_insert_id.
  - set (j := (rng σ 0%nat `mod` S (S i))%nat).
    assert (j < S (S i))%nat as Hj by (apply Nat.mod_upper_bound; lia).
    destruct (lookup_lt_is_Some_2 l j) as [xj Hxj]; [lia |].
    destruct (lookup_lt_is_Some_2 l (S i)) as [xi Hxi]; [lia |].
    set (σ0 := mkState (heap σ) (fun k => rng σ (S k))).
    set (l1 := <[S i := xj]> l).
    set (σ1 := mkState (<[x:=l1]> (heap σ0)) (rng σ0)).
    set (l2 := <[j := xi]> l1).
    set (σ2 := mkState (<[x:=l2]> (heap σ1)) (rng σ1)).
    assert (heap σ1 !! x = Some l1) as Hp1 by apply lookup_insert_eq.
    assert (heap σ2 !! x = Some l2) as Hp2 by apply lookup_insert_eq.
    assert (length l2 = length l) as Hlen
      by (unfold l2, l1; by rewrite !length_insert).
    destruct (IH σ2 l2 Hp2) as (l' & g & Hloop & Hperm); [lia |].
    exists l', g. split.
    + cbn [shuffle_loop]. unfold bind at 1. unfold randbelow. fold j. fold σ0.
      unfold bind at 1.
      rewrite (list___getitem___Some x σ0 l (Z.of_nat j) j xj Hp);
        [| apply norm_index_of_nat; lia | exact Hxj].
      unfold bind at 1.
      rewrite (list___getitem___Some x σ0 l (Z.of_nat (S i)) (S i) xi Hp);
        [| apply norm_index_of_nat; lia | exact Hxi].
      unfold bind at 1.
      rewrite (list___setitem___Some x σ0 l (Z.of_nat (S i)) (S i) xj Hp);
        [| apply norm_index_of_nat; lia].
      fold l1. fold σ1. unfold bind at 1.
      rewrite (list___setitem___Some x σ1 l1 (Z.of_nat j) j xi Hp1);
        [| apply norm_index_of_nat; unfold l1; rewrite length_insert; lia].
      fold l2. fold σ2. rewrite Hloop. do 2 f_equal.
      simpl. by rewrite !insert_insert_eq.
    + rewrite Hperm. unfold l2, l1. by apply exchange_perm.
Qed.

Lemma Deck_shuffle_perm (self : Deck) (σ : state) (l : list Card) :
  heap σ !! _cards self = Some l ->
  exists (l' : list Card) (g : nat -> nat),
    Deck_shuffle self σ
    = (Ret tt, mkState (<[_cards self := l']> (heap σ)) g) /\
    l' ≡ₚ l.
Proof.
  intros Hp. unfold Deck_shuffle, random_shuffle, bind.
  rewrite (list___len___Some _ _ _ Hp).
  by apply shuffle_loop_perm.
Qed.

(** C5: [shuffle()] returns nothing, raises nothing and only reorders the
    deck: the list after it is a permutation of the list before it, of the
    same length, and no other list object changes.  In every store, also one
    that holds no list yet, [Deck(shuffle=True)] builds a deck whose 52 cards
    are a permutation of the cards [Deck(shuffle=False)] builds there, and
    leaves the lists that existed as they were. *)
Theorem Deck_shuffle_permutes (σ : state) :
  (forall (self : Deck) (l : list Card),
      heap σ !! _cards self = Some l ->
      exists (l' : list Card) (g : nat -> nat),
        Deck_shuffle self σ
        = (Ret tt, mkState (<[_cards self := l']> (heap σ)) g) /\
        l' ≡ₚ l /\ length l' = length l) /\
  (exists (plain shuffled : Deck) (σ0 σ' : state) (l0 l' : list Card),
      Deck___init__ false σ = (Ret plain, σ0) /\
      heap σ0 !! _cards plain = Some l0 /\
      Deck___init__ true σ = (Ret shuffled, σ') /\
      heap σ' !! _cards shuffled = Some l' /\
      l0 = full_deck /\
      l' ≡ₚ l0 /\ length l' = 52%nat /\
      forall (q : loc) (l : list Card),
        heap σ !! q = Some l -> heap σ' !! q = Some l).
Proof.
  split.
  - intros self l Hp.
    destruct (Deck_shuffle_perm self σ l Hp) as (l' & g & Hrun & Hperm).
    exists l', g. repeat split; [exact Hrun | exact Hperm |].
    by rewrite Hperm.
  - set (p := fresh (dom (heap σ))).
    set (σ1 := mkState (<[p := full_deck]> (heap σ)) (rng σ)).
    assert (heap σ1 !! _cards (mkDeck p) = Some full_deck) as Hp1
      by apply lookup_insert_eq.
    destruct (Deck_shuffle_perm (mkDeck p) σ1 full_deck Hp1)
      as (l' & g & Hrun & Hperm).
    exists (mkDeck p), (mkDeck p), σ1, (mkState (<[p := l']> (heap σ1)) g),
      full_deck, l'.
    split; [reflexivity |]. split; [exact Hp1 |]. split.
    { unfold Deck___init__, Deck__generate_full_deck, bind.
      unfold list_new. fold p. fold σ1. by rewrite Hrun. }
    split; [apply lookup_insert_eq |]. split; [reflexivity |].
    split; [exact Hperm |]. split; [by rewrite Hperm |].
    intros q l Hq.
    assert (q ≠ p) as Hne.
    { intros ->. assert (heap σ !! p = None) as Hfresh
        by apply not_elem_of_dom, is_fresh.
      congruence. }
    simpl. by rewrite !lookup_insert_ne.
Qed.

Lemma Deck_shuffle_permutes_witness :
  let l := [mkCard HEARTS KING; mkCard SPADES ACE; mkCard CLUBS TWO] in
  let σ := mkState {[ 1%positive := l ]} (fun k => (2 * k + 1)%nat) in
  exists (l' : list Card) (g : nat -> nat),
    Deck_shuffle (mkDeck 1) σ
    = (Ret tt, mkState (<[1%positive := l']> (heap σ)) g) /\
    l' ≡ₚ l /\ length l' = length l.
Proof.
  intros l σ.
  apply (proj1 (Deck_shuffle_permutes σ) (mkDeck 1) l eq_refl).
Defined.

(** The first [Deck()] of [main]: construction in a store without lists. *)
Example Deck_init_shuffled_in_empty_store :
  exists (deck : Deck) (σ' : state) (l' : list Card),
    Deck___init__ true empty_store = (Ret deck, σ') /\
    heap σ' !! _cards deck = Some l' /\
    l' ≡ₚ full_deck /\ length l' = 52%nat.
Proof.
  eexists _, _, _. split; [vm_compute; reflexivity |].
  split; [vm_compute; reflexivity |].
  split; [| reflexivity].
  apply NoDup_Permutation.
  - apply (bool_decide_unpack _). by vm_compute.
  - apply full_deck_NoDup.
  - intros c. split; intros _; [apply full_deck_complete |].
    apply (bool_decide_unpack _). destruct c as [[] []]; by vm_compute.
Qed.

(** ** [max] and [min] *)

Section MinMaxLoop.
(** [op] is [>] with [sgn = 1] and [<] with [sgn = -1]. *)
Variables (op : cmpop) (sgn : Z).
Hypothesis op_key : forall a b : Card,
  do_richcompare op (PyCard a) (PyCard b) = Ret true
  <-> sgn * card_key b < sgn * card_key a.

Lemma min_max_loop_extreme (items : list Card) :
  forall best : Card,
    exists m : Card,
      min_max_loop op best items = Ret m /\
      m ∈ best :: items /\
      forall c : Card,
        c ∈ best :: items -> sgn * card_key c <= sgn * card_key m.
Proof using op_key.
  induction items as [| item rest IH]; intros best.
  - exists best. split; [reflexivity |]. split; [apply list_elem_of_here |].
    intros c Hc. apply list_elem_of_singleton in Hc as ->. lia.
  - cbn [min_max_loop]. pose proof (op_key item best) as Hop.
    destruct (do_richcompare_cards op item best) as [[|] Hr]; rewrite Hr in *.
    + destruct (IH item) as (m & Hm & Hin & Hext).
      exists m. split; [exact Hm |].
      split; [by apply list_elem_of_further |].
      assert (sgn * card_key best < sgn * card_key item) by (by apply Hop).
      pose proof (Hext item (list_elem_of_here _ _)).
      intros c Hc. apply elem_of_cons in Hc as [-> | Hc]; [lia | by apply Hext].
    + destruct (IH best) as (m & Hm & Hin & Hext).
      exists m. split; [exact Hm |]. split.
      { apply elem_of_cons in Hin as [-> | Hin];
          [apply list_elem_of_here | by do 2 apply list_elem_of_further]. }
      assert (~ sgn * card_key best < sgn * card_key item)
        by (intros Hlt; apply Hop in Hlt; discriminate).
      pose proof (Hext best (list_elem_of_here _ _)).
      intros c Hc. apply elem_of_cons in Hc as [-> | Hc]; [assumption |].
      apply elem_of_cons in Hc as [-> | Hc]; [lia |].
      by apply Hext, list_elem_of_further.
Qed.
End MinMaxLoop.

Lemma min_max_loop_gt (items : list Card) (best : Card) :
  exists m : Card,
    min_max_loop OpGt best items = Ret m /\
    m ∈ best :: items /\
    forall c : Card, c ∈ best :: items -> card_key c <= card_key m.
Proof.
  destruct (min_max_loop_extreme OpGt 1) with (items := items) (best := best)
    as (m & Hm & Hin & Hext).
  - intros a b. fold (card_gt a b). rewrite card_gt_key. lia.
  - exists m. split; [exact Hm |]. split; [exact Hin |].
    intros c Hc. specialize (Hext c Hc). lia.
Qed.

Lemma min_max_loop_lt (items : list Card) (best : Card) :
  exists m : Card,
    min_max_loop OpLt best items = Ret m /\
    m ∈ best :: items /\
    forall c : Card, c ∈ best :: items -> card_key m <= card_key c.
Proof.
  destruct (min_max_loop_extreme OpLt (-1)) with (items := items) (best := best)
    as (m & Hm & Hin & Hext).
  - intros a b. fold (card_lt a b). rewrite card_lt_key. lia.
  - exists m. split; [exact Hm |]. split; [exact Hin |].
    intros c Hc. specialize (Hext c Hc). lia.
Qed.

Lemma card_key_le_lt (c m : Card) : card_key c <= card_key m -> c = m \/ card_lt c m.
Proof.
  intros Hle. destruct (decide (card_key c = card_key m)) as [Heq | Hne].
  - left. by apply card_key_inj.
  - right. apply card_lt_key. lia.
Qed.

Lemma card_key_max (c : Card) : card_key c <= card_key (mkCard CLUBS ACE).
Proof. destruct c as [[] []]; unfold card_key; simpl; lia. Qed.

Lemma Deck_max_Some (self : Deck) (σ : state) (l : list Card) :
  heap σ !! _cards self = Some l -> l ≠ [] ->
  exists hi : Card,
    Deck_max self σ = (Ret (Some hi), σ) /\ hi ∈ l /\
    forall c : Card, c ∈ l -> card_key c <= card_key hi.
Proof.
  intros Hp Hne. destruct l as [| first rest]; [done |].
  destruct (min_max_loop_gt rest first) as (m & Hm & Hin & Hmax).
  exists m. split; [| by split].
  unfold Deck_max, bind, lift, builtin_max, min_max.
  by rewrite (list_read_Some _ _ _ Hp), Hm.
Qed.

Lemma Deck_min_Some (self : Deck) (σ : state) (l : list Card) :
  heap σ !! _cards self = Some l -> l ≠ [] ->
  exists lo : Card,
    Deck_min self σ = (Ret (Some lo), σ) /\ lo ∈ l /\
    forall c : Card, c ∈ l -> card_key lo <= card_key c.
Proof.
  intros Hp Hne. destruct l as [| first rest]; [done |].
  destruct (min_max_loop_lt rest first) as (m & Hm & Hin & Hmin).
  exists m. split; [| by split].
  unfold Deck_min, bind, lift, builtin_min, min_max.
  by rewrite (list_read_Some _ _ _ Hp), Hm.
Qed.

(** C6: [max()] and [min()] return the greatest and the least card of the
    deck in the order of [Card]'s comparisons, and [None] on an empty deck;
    on a deck that holds the 52 cards in any order, [max()] is the Ace of
    Clubs. *)
Theorem Deck_max_min_extremes (self : Deck) (σ : state) (l : list Card) :
  heap σ !! _cards self = Some l ->
  (l = [] ->
   Deck_max self σ = (Ret None, σ) /\ Deck_min self σ = (Ret None, σ)) /\
  (l ≠ [] ->
   exists hi lo : Card,
     Deck_max self σ = (Ret (Some hi), σ) /\
     Deck_min self σ = (Ret (Some lo), σ) /\
     hi ∈ l /\ lo ∈ l /\
     forall c : Card, c ∈ l ->
       (c = hi \/ card_lt c hi) /\ (c = lo \/ card_lt lo c)) /\
  (l ≡ₚ full_deck ->
   Deck_max self σ = (Ret (Some (mkCard CLUBS ACE)), σ)).
Proof.
  intros Hp. split; [| split].
  - intros ->. unfold Deck_max, Deck_min, bind.
    by rewrite (list_read_Some _ _ _ Hp).
  - intros Hne.
    destruct (Deck_max_Some self σ l Hp Hne) as (hi & Hmax & Hhi & Hle).
    destruct (Deck_min_Some self σ l Hp Hne) as (lo & Hmin & Hlo & Hge).
    exists hi, lo. repeat split; try assumption.
    + by apply card_key_le_lt, Hle.
    + destruct (card_key_le_lt lo c (Hge c H)) as [-> | Hlt]; auto.
  - intros Hperm.
    assert (l ≠ []) as Hne.
    { intros ->. apply Permutation_length in Hperm. discriminate. }
    destruct (Deck_max_Some self σ l Hp Hne) as (hi & Hmax & Hhi & Hle).
    rewrite Hmax. do 3 f_equal.
    apply card_key_inj. apply Z.le_antisymm; [apply card_key_max |].
    apply Hle. rewrite Hperm. apply full_deck_complete.
Qed.

Lemma Deck_max_min_extremes_witness :
  let σ := mkState {[ 1%positive := full_deck ]} (fun _ => 0%nat) in
  Deck_max (mkDeck 1) σ = (Ret (Some (mkCard CLUBS ACE)), σ).
Proof.
  intros σ.
  apply (proj2 (proj2 (Deck_max_min_extremes (mkDeck 1) σ full_deck eq_refl))).
  reflexivity.
Defined.

(** ** [Deck.cards] *)

Lemma fresh_loc_unused (σ : state) : heap σ !! fresh (dom (heap σ)) = None.
Proof. apply not_elem_of_dom, is_fresh. Qed.

Lemma list_copy_fresh (p : loc) (σ : state) (l : list Card) :
  heap σ !! p = Some l ->
  let q := fresh (dom (heap σ)) in
  list_copy p σ = (Ret q, mkState (<[q:=l]> (heap σ)) (rng σ)) /\
  heap σ !! q = None.
Proof.
  intros Hp q. split; [| apply fresh_loc_unused].
  unfold list_copy, bind. by rewrite (list_read_Some _ _ _ Hp).
Qed.

(** An operation on the list at [p] leaves every other list as it was. *)
Lemma run_list_op_frame (p q : loc) (o : list_op) (σ : state) :
  q ≠ p -> heap (run_list_op p o σ) !! q = heap σ !! q.
Proof.
  intros Hne.
  destruct o as [c | index | index c | items]; simpl;
    unfold list_append, list_pop, list___setitem__, list_write, bind, list_read,
      raise, ret;
    destruct (heap σ !! p) as [l |] eqn:Hp; simpl; try reflexivity.
  - by rewrite lookup_insert_ne.
  - destruct l as [| x l]; [reflexivity |].
    destruct (norm_index _ _) as [i |]; [| reflexivity].
    destruct (_ !! i); [| reflexivity].
    simpl. by rewrite lookup_insert_ne.
  - destruct (norm_index _ _) as [i |]; [| reflexivity].
    simpl. by rewrite lookup_insert_ne.
  - by rewrite lookup_insert_ne.
  - by rewrite lookup_insert_ne.
Qed.

(** C7: [cards] returns a copy: two calls in a row return two new lists,
    distinct from each other and from the deck's own, each with the deck's
    cards in the deck's order; whatever a caller then does to one of them,
    the deck's list and the other copy keep their cards and order. *)
Theorem Deck_cards_defensive_copy (self : Deck) (σ : state) (l : list Card) :
  heap σ !! _cards self = Some l ->
  exists (p1 p2 : loc) (σ1 σ2 : state),
    Deck_cards self σ = (Ret p1, σ1) /\
    Deck_cards self σ1 = (Ret p2, σ2) /\
    heap σ2 !! p1 = Some l /\
    heap σ2 !! p2 = Some l /\
    heap σ2 !! _cards self = Some l /\
    p1 ≠ _cards self /\ p2 ≠ _cards self /\ p1 ≠ p2 /\
    forall o : list_op,
      (heap (run_list_op p1 o σ2) !! _cards self = Some l /\
       heap (run_list_op p1 o σ2) !! p2 = Some l /\
       Deck___iter__ self (run_list_op p1 o σ2) = (Ret l, run_list_op p1 o σ2)) /\
      (heap (run_list_op p2 o σ2) !! _cards self = Some l /\
       heap (run_list_op p2 o σ2) !! p1 = Some l /\
       Deck___iter__ self (run_list_op p2 o σ2) = (Ret l, run_list_op p2 o σ2)).
Proof.
  intros Hp.
  destruct (list_copy_fresh _ σ l Hp) as [Hrun1 Hfresh1].
  set (p1 := fresh (dom (heap σ))) in *.
  set (σ1 := mkState (<[p1:=l]> (heap σ)) (rng σ)) in *.
  assert (p1 ≠ _cards self) as Hne1 by (intros Heq; rewrite Heq in Hfresh1; congruence).
  assert (heap σ1 !! _cards self = Some l) as Hp1
    by (simpl; by rewrite lookup_insert_ne).
  destruct (list_copy_fresh _ σ1 l Hp1) as [Hrun2 Hfresh2].
  set (p2 := fresh (dom (heap σ1))) in *.
  set (σ2 := mkState (<[p2:=l]> (heap σ1)) (rng σ1)) in *.
  assert (p2 ≠ _cards self) as Hne2 by (intros Heq; rewrite Heq in Hfresh2; congruence).
  assert (p1 ≠ p2) as Hne12.
  { intros Heq. rewrite <- Heq in Hfresh2. simpl in Hfresh2.
    by rewrite lookup_insert_eq in Hfresh2. }
  assert (heap σ2 !! p1 = Some l) as Hc1.
  { simpl. rewrite lookup_insert_ne by done. apply lookup_insert_eq. }
  assert (heap σ2 !! p2 = Some l) as Hc2 by apply lookup_insert_eq.
  assert (heap σ2 !! _cards self = Some l) as Hd.
  { simpl. rewrite lookup_insert_ne by done. by rewrite lookup_insert_ne. }
  exists p1, p2, σ1, σ2.
  repeat (split; [assumption |]).
  intros o.
  assert (forall p q : loc, q ≠ p -> heap σ2 !! q = Some l ->
            heap (run_list_op p o σ2) !! q = Some l) as Hframe
    by (intros p q Hpq Hq; by rewrite run_list_op_frame).
  repeat split; try (apply Hframe; done);
    unfold Deck___iter__; apply list_read_Some; apply Hframe; done.
Qed.

Lemma Deck_cards_defensive_copy_witness :
  let l := [mkCard HEARTS KING; mkCard SPADES ACE] in
  let σ := mkState {[ 1%positive := l ]} (fun _ => 0%nat) in
  exists (p1 p2 : loc) (σ1 σ2 : state),
    Deck_cards (mkDeck 1) σ = (Ret p1, σ1) /\
    Deck_cards (mkDeck 1) σ1 = (Ret p2, σ2) /\
    heap σ2 !! p1 = Some l /\
    heap σ2 !! p2 = Some l /\
    heap σ2 !! 1%positive = Some l /\
    p1 ≠ 1%positive /\ p2 ≠ 1%positive /\ p1 ≠ p2 /\
    forall o : list_op,
      (heap (run_list_op p1 o σ2) !! 1%positive = Some l /\
       heap (run_list_op p1 o σ2) !! p2 = Some l /\
       Deck___iter__ (mkDeck 1) (run_list_op p1 o σ2)
       = (Ret l, run_list_op p1 o σ2)) /\
      (heap (run_list_op p2 o σ2) !! 1%positive = Some l /\
       heap (run_list_op p2 o σ2) !! p1 = Some l /\
       Deck___iter__ (mkDeck 1) (run_list_op p2 o σ2)
       = (Ret l, run_list_op p2 o σ2)).
Proof.
  intros l σ. apply (Deck_cards_defensive_copy (mkDeck 1) σ l). reflexivity.
Defined.

(** ** The duplicate-card guard *)

Lemma has_duplicate_iff_not_NoDup (l : list Card) : has_duplicate l <-> ~ NoDup l.
Proof.
  split.
  - intros (i & j & [sa ra] & [sb rb] & Hij & Hi & Hj & Hs & Hr) Hnd.
    simpl in *. subst. apply Hij. eapply NoDup_lookup; eauto.
  - induction l as [| x l IH]; intros Hnd.
    + destruct Hnd. constructor.
    + destruct (decide (x ∈ l)) as [Hin | Hnin].
      * apply list_elem_of_lookup in Hin as [j Hj].
        exists 0%nat, (S j), x, x. by repeat split.
      * destruct IH as (i & j & a & b & Hij & Hi & Hj & Hs & Hr).
        { intros Hl. apply Hnd. by constructor. }
        exists (S i), (S j), a, b. repeat split; [lia | done | done | done | done].
Qed.

Section Guard.
Context `{PyHash}.

(** With a hash that is a function of (suit, rank), the set finds exactly
    the stored cards of the same suit and rank. *)
Lemma set_contains_spec (seen : pyset) (card : Card) :
  set___contains__ seen card = true <-> card ∈ seen.
Proof.
  unfold set___contains__. rewrite existsb_exists. split.
  - intros (stored & Hin & Hmatch). apply list_elem_of_In in Hin.
    apply andb_true_iff in Hmatch as [_ Heq].
    destruct (do_richcompare_cards OpEq stored card) as [r Hr].
    rewrite Hr in Heq. subst r. apply card_eq_iff in Hr. by subst.
  - intros Hin. exists card. split; [by apply list_elem_of_In |].
    pose proof (proj2 (card_eq_iff card card) eq_refl) as Heq.
    unfold card_eq in Heq. by rewrite Z.eqb_refl, Heq.
Qed.

Lemma set_add_new (seen : pyset) (card : Card) :
  card ∉ seen -> set_add seen card = seen ++ [card].
Proof.
  intros Hnin. unfold set_add.
  destruct (set___contains__ seen card) eqn:Hc; [| reflexivity].
  by apply set_contains_spec in Hc.
Qed.

Lemma fair_deck_loop_pass (cards : list Card) :
  forall (seen : pyset) (σ : state),
    NoDup (seen ++ cards) -> fair_deck_loop seen cards σ = (Ret tt, σ).
Proof.
  induction cards as [| card rest IH]; intros seen σ Hnd; [reflexivity |].
  cbn [fair_deck_loop].
  assert (card ∉ seen) as Hnin.
  { apply NoDup_app in Hnd as (_ & Hdisj & _). intros Hin.
    apply (Hdisj card Hin). apply list_elem_of_here. }
  destruct (set___contains__ seen card) eqn:Hc;
    [by apply set_contains_spec in Hc |].
  rewrite set_add_new by done. apply IH. by rewrite <- app_assoc.
Qed.

(** The loop stops at the first card that repeats an earlier one. *)
Lemma fair_deck_loop_stop (cards : list Card) :
  forall (seen : pyset) (σ : state),
    NoDup seen -> ~ NoDup (seen ++ cards) ->
    exists (pre : list Card) (card : Card) (post : list Card),
      cards = pre ++ card :: post /\
      NoDup (seen ++ pre) /\
      card ∈ seen ++ pre /\
      fair_deck_loop seen cards σ
      = (Raise (DeckCheatingError (cheating_message card)), σ).
Proof.
  induction cards as [| card rest IH]; intros seen σ Hseen Hdup.
  - rewrite app_nil_r in Hdup. contradiction.
  - cbn [fair_deck_loop].
    destruct (set___contains__ seen card) eqn:Hc.
    + apply set_contains_spec in Hc.
      exists [], card, rest. rewrite app_nil_r. by repeat split.
    + assert (card ∉ seen) as Hnin
        by (intros Hin; apply set_contains_spec in Hin; congruence).
      rewrite set_add_new by done.
      destruct (IH (seen ++ [card]) σ) as (pre & dup & post & -> & Hnd & Hin & Hrun).
      * apply NoDup_app. repeat split; [done | | apply NoDup_singleton].
        intros x Hx ->%list_elem_of_singleton. contradiction.
      * by rewrite <- app_assoc.
      * exists (card :: pre), dup, post.
        rewrite <- app_assoc in Hnd, Hin. by repeat split.
Qed.

Context {Args : Type}.
Variables (func : Args -> M PyObj) (args : Args).

Lemma fair_deck_not_deck (σ σ' : state) (result : PyObj) :
  func args σ = (Ret result, σ') ->
  (forall d : Deck, result ≠ PyDeck d) ->
  fair_deck func args σ = (Ret result, σ').
Proof.
  intros Hrun Hnd. unfold fair_deck, bind at 1. rewrite Hrun.
  destruct result as [| z | c | d]; try reflexivity. by destruct (Hnd d).
Qed.

Lemma fair_deck_deck_pass (σ σ' : state) (d : Deck) (l : list Card) :
  func args σ = (Ret (PyDeck d), σ') ->
  heap σ' !! _cards d = Some l -> NoDup l ->
  fair_deck func args σ = (Ret (PyDeck d), σ').
Proof.
  intros Hrun Hl Hnd. unfold fair_deck, bind at 1. rewrite Hrun.
  unfold Deck___iter__, bind. rewrite (list_read_Some _ _ _ Hl).
  by rewrite fair_deck_loop_pass.
Qed.

Lemma fair_deck_deck_stop (σ σ' : state) (d : Deck) (l : list Card) :
  func args σ = (Ret (PyDeck d), σ') ->
  heap σ' !! _cards d = Some l -> ~ NoDup l ->
  exists (pre : list Card) (card : Card) (post : list Card),
    l = pre ++ card :: post /\ NoDup pre /\ card ∈ pre /\
    fair_deck func args σ
    = (Raise (DeckCheatingError (cheating_message card)), σ').
Proof.
  intros Hrun Hl Hdup.
  destruct (fair_deck_loop_stop l [] σ') as (pre & card & post & -> & Hnd & Hin & Hloop);
    [constructor | done |].
  exists pre, card, post. repeat split; try done.
  unfold fair_deck, bind at 1. rewrite Hrun.
  unfold Deck___iter__, bind. rewrite (list_read_Some _ _ _ Hl).
  by rewrite Hloop.
Qed.

(** C8: when the wrapped call returns, the guard raises the duplicate-card
    error if and only if the result is a [Deck] that holds two cards of the
    same suit and rank; the error names the first card of the deck that
    repeats an earlier one, by its display name; a deck without duplicates
    and any result that is not a [Deck] come back as the wrapped call
    returned them, with the store as the call left it. *)
Theorem fair_deck_guard (σ σ' : state) (result : PyObj) :
  func args σ = (Ret result, σ') ->
  (forall d : Deck, result = PyDeck d -> is_Some (heap σ' !! _cards d)) ->
  ((exists (msg : string) (σ'' : state),
       fair_deck func args σ = (Raise (DeckCheatingError msg), σ''))
   <-> exists (d : Deck) (l : list Card),
         result = PyDeck d /\ heap σ' !! _cards d = Some l /\ has_duplicate l) /\
  (forall (d : Deck) (l : list Card),
      result = PyDeck d -> heap σ' !! _cards d = Some l -> has_duplicate l ->
      exists (pre : list Card) (card : Card) (post : list Card),
        l = pre ++ card :: post /\ ~ has_duplicate pre /\ card ∈ pre /\
        fair_deck func args σ
        = (Raise (DeckCheatingError
                    ("Cheating detected: duplicate card "
                     +:+ Card_get_display_name card)), σ')) /\
  ((forall (d : Deck) (l : list Card),
       result = PyDeck d -> heap σ' !! _cards d = Some l -> ~ has_duplicate l) ->
   fair_deck func args σ = (Ret result, σ')).
Proof.
  intros Hrun Hwf.
  assert (forall (d : Deck) (l : list Card),
             result = PyDeck d -> heap σ' !! _cards d = Some l -> has_duplicate l ->
             exists (pre : list Card) (card : Card) (post : list Card),
               l = pre ++ card :: post /\ ~ has_duplicate pre /\ card ∈ pre /\
               fair_deck func args σ
               = (Raise (DeckCheatingError (cheating_message card)), σ')) as Hstop.
  { intros d l -> Hl Hdup. apply has_duplicate_iff_not_NoDup in Hdup.
    destruct (fair_deck_deck_stop σ σ' d l Hrun Hl Hdup)
      as (pre & card & post & Heq & Hnd & Hin & Hraise).
    exists pre, card, post. repeat split; try done.
    rewrite has_duplicate_iff_not_NoDup. tauto. }
  assert ((forall (d : Deck) (l : list Card),
              result = PyDeck d -> heap σ' !! _cards d = Some l ->
              ~ has_duplicate l) ->
          fair_deck func args σ = (Ret result, σ')) as Hpass.
  { intros Hclean. destruct result as [| z | c | d];
      try (apply fair_deck_not_deck; [exact Hrun | congruence]).
    destruct (Hwf d eq_refl) as [l Hl].
    apply (fair_deck_deck_pass σ σ' d l Hrun Hl).
    destruct (decide (NoDup l)) as [Hnd | Hdup]; [done |].
    apply has_duplicate_iff_not_NoDup in Hdup. by destruct (Hclean d l eq_refl Hl). }
  split; [| split; [exact Hstop | exact Hpass]].
  split.
  - intros (msg & σ'' & Hraise).
    destruct result as [| z | c | d];
      try (rewrite (fair_deck_not_deck σ σ' _ Hrun) in Hraise by congruence;
           discriminate).
    destruct (Hwf d eq_refl) as [l Hl].
    exists d, l. repeat split; try done.
    apply has_duplicate_iff_not_NoDup. intros Hnd.
    rewrite (fair_deck_deck_pass σ σ' d l Hrun Hl Hnd) in Hraise. discriminate.
  - intros (d & l & Hres & Hl & Hdup).
    destruct (Hstop d l Hres Hl Hdup) as (pre & card & post & _ & _ & _ & Hraise).
    eauto.
Qed.
End Guard.

Lemma fair_deck_guard_witness :
  let σ' := snd (stacked_deck tt empty_store) in
  exists (pre : list Card) (card : Card) (post : list Card),
    full_deck ++ [mkCard SPADES ACE] = pre ++ card :: post /\
    ~ has_duplicate pre /\ card ∈ pre /\
    fair_deck (H := sample_hash) stacked_deck tt empty_store
    = (Raise (DeckCheatingError
                ("Cheating detected: duplicate card "
                 +:+ Card_get_display_name card)), σ').
Proof.
  intros σ'.
  refine (proj1 (proj2 (@fair_deck_guard sample_hash unit stacked_deck tt
                          empty_store σ' (PyDeck (mkDeck 1)) _ _))
            (mkDeck 1) (full_deck ++ [mkCard SPADES ACE]) eq_refl _ _).
  - reflexivity.
  - intros d [= <-]. eexists. reflexivity.
  - reflexivity.
  - exists 12%nat, 52%nat, (mkCard SPADES ACE), (mkCard SPADES ACE).
    repeat split. lia.
Defined.

(** The scenario of the two Aces of Spades, evaluated. *)
Example fair_deck_two_aces_of_spades :
  fair_deck (H := sample_hash) stacked_deck tt empty_store
  = (Raise (DeckCheatingError "Cheating detected: duplicate card Ace of Spades"),
     snd (stacked_deck tt empty_store)).
Proof. vm_compute. reflexivity. Qed.

Example fair_deck_new_deck_passes :
  fair_deck (H := sample_hash) (fun _ : unit => do d <- Deck___init__ true ;; ret (PyDeck d))
    tt empty_store
  = (do d <- Deck___init__ true ;; ret (PyDeck d)) empty_store.
Proof. vm_compute. reflexivity. Qed.

(** ** Contract violations *)

Lemma do_richcompare_non_card (c : Card) (other : PyObj) :
  (forall c' : Card, other ≠ PyCard c') ->
  Card___eq__ c other = NotImplemented /\
  Card___lt__ c other = NotImplemented /\
  Card___gt__ c other = NotImplemented /\
  do_richcompare OpEq (PyCard c) other = Ret false /\
  do_richcompare OpLt (PyCard c) other = Raise TypeError /\
  do_richcompare OpGt (PyCard c) other = Raise TypeError.
Proof.
  intros Hother. destruct other as [| z | c' | d]; try by repeat split.
  by destruct (Hother c').
Qed.

(** C9, as the code has it: [deck[i]] raises [IndexError] exactly when
    [i >= n] or [i < -n] for a deck of [n] cards, and the store is then
    unchanged; the error reads "list index out of range" when [i] fits a
    machine word and "cannot fit 'int' into an index-sized integer" when it
    does not; every index [-n <= i < n] is served.  Given [None], an [int]
    or a [Deck], the methods [__eq__], [__lt__] and [__gt__] of a card raise
    nothing and return [NotImplemented]; [card == x] is then [False], and
    [card < x] and [card > x] raise [TypeError].  The comparisons read
    neither deck nor store. *)
Theorem contract_violations_as_coded
  (self : Deck) (σ : state) (l : list Card) (index : Z) (c : Card) (other : PyObj) :
  heap σ !! _cards self = Some l ->
  (index < - Z.of_nat (length l) \/ Z.of_nat (length l) <= index ->
   Deck___getitem__ self index σ
   = (Raise (IndexError
               (if (- 2 ^ 63 <=? index) && (index <? 2 ^ 63)
                then "list index out of range"
                else "cannot fit 'int' into an index-sized integer")), σ)) /\
  (- Z.of_nat (length l) <= index < Z.of_nat (length l) ->
   exists c' : Card, c' ∈ l /\ Deck___getitem__ self index σ = (Ret c', σ)) /\
  ((forall c' : Card, other ≠ PyCard c') ->
   Card___eq__ c other = NotImplemented /\
   Card___lt__ c other = NotImplemented /\
   Card___gt__ c other = NotImplemented /\
   do_richcompare OpEq (PyCard c) other = Ret false /\
   do_richcompare OpLt (PyCard c) other = Raise TypeError /\
   do_richcompare OpGt (PyCard c) other = Raise TypeError).
Proof.
  intros Hp. split; [| split].
  - intros Hout. unfold Deck___getitem__.
    rewrite (list___getitem___outside _ σ l index Hp)
      by (by apply norm_index_outside).
    unfold index_error, fits_ssize_t.
    by destruct ((- 2 ^ 63 <=? index) && (index <? 2 ^ 63)).
  - intros Hin. destruct (Z.neg_nonneg_cases index) as [Hneg | Hpos].
    + destruct (Deck_getitem_from_back self σ l index Hp) as (c' & Hc' & Hrun);
        [lia |].
      exists c'. split; [| exact Hrun]. by eapply list_elem_of_lookup_2.
    + destruct (Deck_getitem_from_front self σ l index Hp) as (c' & Hc' & Hrun);
        [lia |].
      exists c'. split; [| exact Hrun]. by eapply list_elem_of_lookup_2.
  - apply do_richcompare_non_card.
Qed.

Lemma contract_violations_as_coded_witness :
  let σ := mkState {[ 1%positive := full_deck ]} (fun _ => 0%nat) in
  Deck___getitem__ (mkDeck 1) 52 σ
  = (Raise (IndexError "list index out of range"), σ).
Proof.
  intros σ.
  apply (proj1 (contract_violations_as_coded (mkDeck 1) σ full_deck 52
                  (mkCard SPADES ACE) PyNone eq_refl)).
  right. simpl. lia.
Defined.

(** [deck[2**63]] and [deck[-2**63 - 1]]: the index does not fit a word. *)
Example Deck_getitem_beyond_machine_word :
  let σ := mkState {[ 1%positive := full_deck ]} (fun _ => 0%nat) in
  Deck___getitem__ (mkDeck 1) (2 ^ 63) σ
  = (Raise (IndexError "cannot fit 'int' into an index-sized integer"), σ) /\
  Deck___getitem__ (mkDeck 1) (- 2 ^ 63 - 1) σ
  = (Raise (IndexError "cannot fit 'int' into an index-sized integer"), σ) /\
  Deck___getitem__ (mkDeck 1) (2 ^ 63 - 1) σ
  = (Raise (IndexError "list index out of range"), σ) /\
  Deck___getitem__ (mkDeck 1) (- 2 ^ 63) σ
  = (Raise (IndexError "list index out of range"), σ).
Proof. intros σ. repeat split; vm_compute; reflexivity. Qed.

(** C9, as stated, fails: index [-1] lies outside [0 .. 51] and yet
    [deck[-1]] returns the last card; and [Card(SPADES, ACE) == 5] raises
    nothing, it is [False]. *)
Lemma contract_violation_not_rejected :
  let σ := mkState {[ 1%positive := full_deck ]} (fun _ => 0%nat) in
  ~ (0 <= -1 < Z.of_nat (length full_deck)) /\
  Deck___getitem__ (mkDeck 1) (-1) σ = (Ret (mkCard CLUBS ACE), σ) /\
  Card___eq__ (mkCard SPADES ACE) (PyInt 5) = NotImplemented /\
  do_richcompare OpEq (PyCard (mkCard SPADES ACE)) (PyInt 5) = Ret false.
Proof. intros σ. split; [lia |]. by repeat split. Qed.

(** * Further properties *)

(** ** Cards: hash, order and names *)

(** X1: cards that compare equal hash alike, whatever the tuple hash of the
    interpreter is. *)
Theorem Card_hash_respects_eq `{PyHash} (a b : Card) :
  card_eq a b -> Card___hash__ a = Card___hash__ b.
Proof. intros Heq. apply card_eq_iff in Heq. by subst. Qed.

Lemma Card_hash_respects_eq_witness :
  @Card___hash__ sample_hash (mkCard SPADES ACE)
  = @Card___hash__ sample_hash (mkCard SPADES ACE).
Proof.
  apply (@Card_hash_respects_eq sample_hash (mkCard SPADES ACE) (mkCard SPADES ACE)).
  reflexivity.
Defined.

(** X2: [<] and [>] are each other's converse, no card is below or above
    itself, and a card is below another exactly when it differs from it and
    is not above it. *)
Theorem Card_lt_gt_converse (a b : Card) :
  (card_lt a b <-> card_gt b a) /\
  ~ card_lt a a /\ ~ card_gt a a /\
  (card_lt a b <-> a ≠ b /\ ~ card_gt a b).
Proof.
  rewrite !card_lt_key, !card_gt_key.
  pose proof (card_key_inj a b) as Hinj.
  repeat split; try lia.
  - intros ->. lia.
  - intros [Hne Hle].
    destruct (Z.lt_trichotomy (card_key a) (card_key b)) as [? | [Heq | ?]];
      [assumption | by destruct (Hne (Hinj Heq)) | lia].
Qed.

Lemma display_names_NoDup : NoDup (Card_get_display_name <$> full_deck).
Proof. apply (bool_decide_unpack _). by vm_compute. Qed.

Lemma repr_names_NoDup : NoDup (Card___repr__ <$> full_deck).
Proof. apply (bool_decide_unpack _). by vm_compute. Qed.

Lemma NoDup_fmap_full_deck_inj {B : Type} (f : Card -> B) (a b : Card) :
  NoDup (f <$> full_deck) -> f a = f b -> a = b.
Proof.
  intros Hnd Hab.
  destruct (list_elem_of_lookup_1 _ _ (full_deck_complete a)) as [i Hi].
  destruct (list_elem_of_lookup_1 _ _ (full_deck_complete b)) as [j Hj].
  assert (i = j) as ->.
  { apply (NoDup_lookup _ i j (f a) Hnd).
    - by rewrite list_lookup_fmap, Hi.
    - by rewrite list_lookup_fmap, Hj, Hab. }
  congruence.
Qed.

(** X3: the display name ([str]) and the debug form ([repr]) each identify
    the card: two cards with the same text are the same card. *)
Theorem Card_text_identifies_card (a b : Card) :
  (Card___str__ a = Card___str__ b -> a = b) /\
  (Card___repr__ a = Card___repr__ b -> a = b).
Proof.
  split.
  - apply (NoDup_fmap_full_deck_inj Card_get_display_name), display_names_NoDup.
  - apply NoDup_fmap_full_deck_inj, repr_names_NoDup.
Qed.

(** ** The set of seen cards *)

(** X4: a card added to a set is found in it afterwards, the cards that were
    in it stay, no other card appears, and adding a card a second time
    changes nothing; this holds for every hash. *)
Theorem set_add_then_contains `{PyHash} (s : pyset) (card other : Card) :
  set___contains__ (set_add s card) card = true /\
  (set___contains__ (set_add s card) other
   = set___contains__ s other || bool_decide (other = card)) /\
  set_add (set_add s card) card = set_add s card.
Proof.
  assert (forall c : Card, c ∈ set_add s card <-> c ∈ s \/ c = card) as Hadd.
  { intros c. unfold set_add.
    destruct (set___contains__ s card) eqn:Hc.
    - apply set_contains_spec in Hc. split; [tauto |]. by intros [? | ->].
    - rewrite elem_of_app, list_elem_of_singleton. tauto. }
  assert (set___contains__ (set_add s card) card = true) as Hfound
    by (apply set_contains_spec, Hadd; by right).
  split; [exact Hfound |]. split.
  - apply eq_true_iff_eq.
    rewrite orb_true_iff, bool_decide_eq_true, !set_contains_spec. apply Hadd.
  - unfold set_add at 1. by rewrite Hfound.
Qed.

(** ** Adding and drawing *)

Lemma Deck_add_card_Some (self : Deck) (σ : state) (l : list Card) (card : Card) :
  heap σ !! _cards self = Some l ->
  Deck_add_card self card σ
  = (Ret tt, mkState (<[_cards self := l ++ [card]]> (heap σ)) (rng σ)).
Proof.
  intros Hp. unfold Deck_add_card, list_append, bind.
  by rewrite (list_read_Some _ _ _ Hp).
Qed.

(** X5: [add_card] never checks or rejects: it puts the card at the back.
    Afterwards the length is one more, [deck[-1]] and [deck[n]] are the new
    card, and every earlier position holds the card it held before. *)
Theorem Deck_add_card_appends
  (self : Deck) (σ : state) (l : list Card) (card : Card) :
  heap σ !! _cards self = Some l ->
  exists σ' : state,
    Deck_add_card self card σ = (Ret tt, σ') /\
    heap σ' = <[_cards self := l ++ [card]]> (heap σ) /\
    Deck___len__ self σ' = (Ret (S (length l)), σ') /\
    Deck___getitem__ self (-1) σ' = (Ret card, σ') /\
    Deck___getitem__ self (Z.of_nat (length l)) σ' = (Ret card, σ') /\
    forall (i : nat) (c : Card),
      l !! i = Some c -> Deck___getitem__ self (Z.of_nat i) σ' = (Ret c, σ').
Proof.
  intros Hp.
  set (σ' := mkState (<[_cards self := l ++ [card]]> (heap σ)) (rng σ)).
  assert (heap σ' !! _cards self = Some (l ++ [card])) as Hp'
    by apply lookup_insert_eq.
  assert (length (l ++ [card]) = S (length l)) as Hlen
    by (rewrite length_app; simpl; lia).
  exists σ'. split; [by apply Deck_add_card_Some |]. split; [reflexivity |].
  split; [| split; [| split]].
  - rewrite <- Hlen. by apply list___len___Some.
  - unfold Deck___getitem__.
    apply (list___getitem___Some _ _ (l ++ [card]) _ (length l)); [done | |].
    + rewrite norm_index_negative by lia. f_equal. lia.
    + by rewrite lookup_app_r, Nat.sub_diag.
  - unfold Deck___getitem__.
    apply (list___getitem___Some _ _ (l ++ [card]) _ (length l)); [done | |].
    + apply norm_index_of_nat. lia.
    + by rewrite lookup_app_r, Nat.sub_diag.
  - intros i c Hc. unfold Deck___getitem__.
    apply (list___getitem___Some _ _ (l ++ [card]) _ i); [done | |].
    + apply norm_index_of_nat. apply lookup_lt_Some in Hc. lia.
    + by apply lookup_app_l_Some.
Qed.

Lemma Deck_add_card_appends_witness :
  let l := [mkCard HEARTS KING; mkCard SPADES ACE] in
  let σ := mkState {[ 1%positive := l ]} (fun _ => 0%nat) in
  exists σ' : state,
    Deck_add_card (mkDeck 1) (mkCard HEARTS KING) σ = (Ret tt, σ') /\
    heap σ' = <[1%positive := l ++ [mkCard HEARTS KING]]> (heap σ) /\
    Deck___len__ (mkDeck 1) σ' = (Ret (S (length l)), σ') /\
    Deck___getitem__ (mkDeck 1) (-1) σ' = (Ret (mkCard HEARTS KING), σ') /\
    Deck___getitem__ (mkDeck 1) (Z.of_nat (length l)) σ'
    = (Ret (mkCard HEARTS KING), σ') /\
    forall (i : nat) (c : Card),
      l !! i = Some c -> Deck___getitem__ (mkDeck 1) (Z.of_nat i) σ' = (Ret c, σ').
Proof.
  intros l σ.
  apply (Deck_add_card_appends (mkDeck 1) σ l (mkCard HEARTS KING)). reflexivity.
Defined.

(** X6: drawing a card and adding it back (as [main] does) moves the front
    card to the back: the deck keeps its length and its cards, and stays
    free of duplicates if it was. *)
Theorem Deck_draw_then_add_back
  (self : Deck) (σ : state) (c : Card) (rest : list Card) :
  heap σ !! _cards self = Some (c :: rest) ->
  exists σ1 σ2 : state,
    Deck_draw self σ = (Ret (Some c), σ1) /\
    Deck_add_card self c σ1 = (Ret tt, σ2) /\
    σ2 = mkState (<[_cards self := rest ++ [c]]> (heap σ)) (rng σ) /\
    rest ++ [c] ≡ₚ c :: rest /\
    Deck___len__ self σ2 = (Ret (length (c :: rest)), σ2) /\
    (NoDup (c :: rest) -> NoDup (rest ++ [c])).
Proof.
  intros Hp.
  set (σ1 := mkState (<[_cards self := rest]> (heap σ)) (rng σ)).
  assert (heap σ1 !! _cards self = Some rest) as Hp1 by apply lookup_insert_eq.
  assert (rest ++ [c] ≡ₚ c :: rest) as Hperm
    by (by rewrite Permutation_app_comm).
  exists σ1, (mkState (<[_cards self := rest ++ [c]]> (heap σ)) (rng σ)).
  split; [by apply Deck_draw_cons |]. split.
  { rewrite (Deck_add_card_Some self σ1 rest c Hp1). simpl.
    by rewrite insert_insert_eq. }
  split; [reflexivity |]. split; [exact Hperm |]. split.
  - rewrite <- (Permutation_length Hperm).
    apply list___len___Some. apply lookup_insert_eq.
  - intros Hnd. by rewrite Hperm.
Qed.

Lemma Deck_draw_then_add_back_witness :
  let σ := mkState {[ 1%positive := [mkCard HEARTS KING; mkCard SPADES ACE] ]}
                   (fun _ => 0%nat) in
  exists σ1 σ2 : state,
    Deck_draw (mkDeck 1) σ = (Ret (Some (mkCard HEARTS KING)), σ1) /\
    Deck_add_card (mkDeck 1) (mkCard HEARTS KING) σ1 = (Ret tt, σ2) /\
    σ2 = mkState (<[1%positive := [mkCard SPADES ACE] ++ [mkCard HEARTS KING]]>
                    (heap σ)) (rng σ) /\
    [mkCard SPADES ACE] ++ [mkCard HEARTS KING]
      ≡ₚ [mkCard HEARTS KING; mkCard SPADES ACE] /\
    Deck___len__ (mkDeck 1) σ2 = (Ret 2%nat, σ2) /\
    (NoDup [mkCard HEARTS KING; mkCard SPADES ACE] ->
     NoDup ([mkCard SPADES ACE] ++ [mkCard HEARTS KING])).
Proof.
  intros σ.
  apply (Deck_draw_then_add_back (mkDeck 1) σ (mkCard HEARTS KING) [mkCard SPADES ACE]).
  reflexivity.
Defined.

Lemma Deck_draw_times_run (self : Deck) (k : nat) :
  forall (σ : state) (l : list Card),
    heap σ !! _cards self = Some l ->
    Deck_draw_times self k σ
    = (Ret ((Some <$> take k l) ++ replicate (k - length l) None),
       mkState (<[_cards self := drop k l]> (heap σ)) (rng σ)).
Proof.
  induction k as [| k IH]; intros σ l Hp.
  - simpl. unfold ret. rewrite drop_0. by rewrite state_insert_id.
  - cbn [Deck_draw_times]. unfold bind at 1.
    destruct l as [| c rest].
    + rewrite (Deck_draw_nil self σ Hp). unfold bind at 1.
      rewrite (IH σ [] Hp). unfold ret.
      rewrite !take_nil, !drop_nil. simpl. by rewrite Nat.sub_0_r.
    + rewrite (Deck_draw_cons self σ c rest Hp). unfold bind at 1.
      rewrite (IH _ rest) by apply lookup_insert_eq.
      unfold ret. simpl. by rewrite insert_insert_eq.
Qed.

(** X7: [k] draws in a row return the first [k] cards of the deck in deck
    order; once the deck is empty every further draw returns [None]; what
    is left in the deck are the cards behind the first [k], in their order,
    and no other list changes. *)
Theorem Deck_draw_times_fifo (self : Deck) (k : nat) (σ : state) (l : list Card) :
  heap σ !! _cards self = Some l ->
  exists σ' : state,
    Deck_draw_times self k σ
    = (Ret ((Some <$> take k l) ++ replicate (k - length l) None), σ') /\
    σ' = mkState (<[_cards self := drop k l]> (heap σ)) (rng σ) /\
    Deck___len__ self σ' = (Ret (length l - k)%nat, σ') /\
    ((length l <= k)%nat -> Deck_draw self σ' = (Ret None, σ')).
Proof.
  intros Hp. eexists. split; [by apply Deck_draw_times_run |].
  split; [reflexivity |].
  assert (heap (mkState (<[_cards self := drop k l]> (heap σ)) (rng σ))
            !! _cards self = Some (drop k l)) as Hp' by apply lookup_insert_eq.
  split.
  - rewrite <- length_drop. by apply list___len___Some.
  - intros Hk. apply Deck_draw_nil. simpl.
    rewrite drop_ge by lia. apply lookup_insert_eq.
Qed.

Lemma Deck_draw_times_fifo_witness :
  let l := [mkCard HEARTS KING; mkCard SPADES ACE] in
  let σ := mkState {[ 1%positive := l ]} (fun _ => 0%nat) in
  exists σ' : state,
    Deck_draw_times (mkDeck 1) 3 σ
    = (Ret ((Some <$> take 3 l) ++ replicate (3 - length l) None), σ') /\
    σ' = mkState (<[1%positive := drop 3 l]> (heap σ)) (rng σ) /\
    Deck___len__ (mkDeck 1) σ' = (Ret (length l - 3)%nat, σ') /\
    ((length l <= 3)%nat -> Deck_draw (mkDeck 1) σ' = (Ret None, σ')).
Proof.
  intros l σ. apply (Deck_draw_times_fifo (mkDeck 1) 3 σ l). reflexivity.
Defined.

(** ** Indexing and iteration *)

(** X8: on a deck of [n] cards and for [0 <= i < n], [deck[i]] and
    [deck[i - n]] are the same card, namely the [i]-th card a [for] loop over
    the deck visits; neither changes the store. *)
Theorem Deck_getitem_agrees_with_iter
  (self : Deck) (σ : state) (l : list Card) (i : nat) :
  heap σ !! _cards self = Some l ->
  (i < length l)%nat ->
  exists c : Card,
    Deck___iter__ self σ = (Ret l, σ) /\
    l !! i = Some c /\
    Deck___getitem__ self (Z.of_nat i) σ = (Ret c, σ) /\
    Deck___getitem__ self (Z.of_nat i - Z.of_nat (length l)) σ = (Ret c, σ).
Proof.
  intros Hp Hi.
  destruct (lookup_lt_is_Some_2 l i Hi) as [c Hc].
  exists c. split; [by apply list_read_Some |]. split; [exact Hc |].
  unfold Deck___getitem__. split.
  - apply (list___getitem___Some _ _ l _ i); [done | | done].
    by apply norm_index_of_nat.
  - apply (list___getitem___Some _ _ l _ i); [done | | done].
    rewrite norm_index_negative by lia. f_equal. lia.
Qed.

Lemma Deck_getitem_agrees_with_iter_witness :
  let l := [mkCard HEARTS KING; mkCard SPADES ACE] in
  let σ := mkState {[ 1%positive := l ]} (fun _ => 0%nat) in
  exists c : Card,
    Deck___iter__ (mkDeck 1) σ = (Ret l, σ) /\
    l !! 1%nat = Some c /\
    Deck___getitem__ (mkDeck 1) (Z.of_nat 1) σ = (Ret c, σ) /\
    Deck___getitem__ (mkDeck 1) (Z.of_nat 1 - Z.of_nat (length l)) σ = (Ret c, σ).
Proof.
  intros l σ. apply (Deck_getitem_agrees_with_iter (mkDeck 1) σ l 1).
  - reflexivity.
  - simpl. lia.
Defined.

(** ** More on the guard *)

Lemma Deck_init_shape (shuffle : bool) (σ : state) :
  let p := fresh (dom (heap σ)) in
  exists (l' : list Card) (g : nat -> nat),
    Deck___init__ shuffle σ
    = (Ret (mkDeck p), mkState (<[p := l']> (heap σ)) g) /\
    l' ≡ₚ full_deck.
Proof.
  intros p. destruct shuffle.
  - set (σ1 := mkState (<[p := full_deck]> (heap σ)) (rng σ)).
    assert (heap σ1 !! _cards (mkDeck p) = Some full_deck) as Hp1
      by apply lookup_insert_eq.
    destruct (Deck_shuffle_perm (mkDeck p) σ1 full_deck Hp1)
      as (l' & g & Hrun & Hperm).
    exists l', g. split; [| exact Hperm].
    unfold Deck___init__, Deck__generate_full_deck, bind.
    unfold list_new. fold p. fold σ1. rewrite Hrun. simpl.
    by rewrite insert_insert_eq.
  - exists full_deck, (rng σ). split; [apply Deck_init_unshuffled | reflexivity].
Qed.

Section GuardMore.
Context `{PyHash}.

Lemma fair_deck_loop_outcome (cards : list Card) :
  forall (seen : pyset) (σ : state),
    fair_deck_loop seen cards σ = (Ret tt, σ) \/
    exists card : Card,
      fair_deck_loop seen cards σ
      = (Raise (DeckCheatingError (cheating_message card)), σ).
Proof.
  induction cards as [| card rest IH]; intros seen σ; [by left |].
  cbn [fair_deck_loop]. destruct (set___contains__ seen card); [| apply IH].
  right. by exists card.
Qed.

(** The loop raises for the first card that repeats an earlier one. *)
Lemma fair_deck_loop_first_repeat (pre : list Card) :
  forall (seen : pyset) (card : Card) (post : list Card) (σ : state),
    NoDup (seen ++ pre) -> card ∈ seen ++ pre ->
    fair_deck_loop seen (pre ++ card :: post) σ
    = (Raise (DeckCheatingError (cheating_message card)), σ).
Proof.
  induction pre as [| x pre IH]; intros seen card post σ Hnd Hin.
  - rewrite app_nil_r in Hin. apply set_contains_spec in Hin.
    simpl. by rewrite Hin.
  - assert (x ∉ seen) as Hx.
    { apply NoDup_app in Hnd as (_ & Hdisj & _). intros Hxs.
      apply (Hdisj x Hxs). apply list_elem_of_here. }
    simpl. destruct (set___contains__ seen x) eqn:Hc;
      [by apply set_contains_spec in Hc |].
    rewrite set_add_new by done.
    apply IH; by rewrite <- app_assoc.
Qed.

Context {Args : Type}.
Variables (func : Args -> M PyObj) (args : Args).

(** X9: the guard only reads: whatever the wrapped call returns or raises,
    the store after the guarded call is the store the wrapped call left; an
    exception of the wrapped call comes out as it is. *)
Theorem fair_deck_leaves_store (σ : state) :
  snd (fair_deck func args σ) = snd (func args σ) /\
  (forall (e : PyExc) (σ' : state),
      func args σ = (Raise e, σ') -> fair_deck func args σ = (Raise e, σ')).
Proof.
  split.
  - unfold fair_deck, bind at 1.
    destruct (func args σ) as [[result | e | ] σ']; try reflexivity.
    destruct result as [| z | c | d]; try reflexivity.
    unfold Deck___iter__, bind, list_read.
    destruct (heap σ' !! _cards d) as [l |]; [| reflexivity].
    destruct (fair_deck_loop_outcome l [] σ') as [Hl | [card Hl]];
      by rewrite Hl.
  - intros e σ' Hrun. unfold fair_deck, bind at 1. by rewrite Hrun.
Qed.

(** X10: stacking the decorator twice behaves like applying it once. *)
Theorem fair_deck_idempotent (σ : state) :
  fair_deck (fair_deck func) args σ = fair_deck func args σ.
Proof.
  unfold fair_deck at 1. unfold bind at 1.
  destruct (fair_deck func args σ) as [[result | e | ] σ'] eqn:Hguard;
    try reflexivity.
  destruct result as [| z | c | d]; try reflexivity.
  (* the inner guard returned a deck: its own loop found nothing *)
  revert Hguard. unfold fair_deck, bind at 1.
  destruct (func args σ) as [[result | e | ] σ0]; try discriminate.
  destruct result as [| z | c | d0]; try (unfold ret; congruence).
  unfold Deck___iter__, bind, list_read.
  destruct (heap σ0 !! _cards d0) as [l |] eqn:Hl; [| discriminate].
  destruct (fair_deck_loop_outcome l [] σ0) as [Hloop | [card Hloop]];
    rewrite Hloop; [| discriminate].
  unfold ret. intros [= -> ->]. by rewrite Hl, Hloop.
Qed.
End GuardMore.

(** X11: a newly constructed deck, shuffled or not, passes the guard: for
    every stream of random draws and every hash the guarded constructor
    returns the deck the constructor built. *)
Theorem fair_deck_passes_new_deck `{PyHash} (shuffle : bool) (σ : state) :
  exists (deck : Deck) (σ' : state) (l : list Card),
    new_deck shuffle σ = (Ret (PyDeck deck), σ') /\
    heap σ' !! _cards deck = Some l /\ l ≡ₚ full_deck /\
    fair_deck new_deck shuffle σ = (Ret (PyDeck deck), σ').
Proof.
  destruct (Deck_init_shape shuffle σ) as (l & g & Hinit & Hperm).
  set (p := fresh (dom (heap σ))) in *.
  assert (new_deck shuffle σ
          = (Ret (PyDeck (mkDeck p)), mkState (<[p:=l]> (heap σ)) g)) as Hrun
    by (unfold new_deck, bind; by rewrite Hinit).
  exists (mkDeck p), (mkState (<[p:=l]> (heap σ)) g), l.
  split; [exact Hrun |].
  assert (heap (mkState (<[p:=l]> (heap σ)) g) !! _cards (mkDeck p) = Some l)
    as Hl by apply lookup_insert_eq.
  split; [exact Hl |]. split; [exact Hperm |].
  apply (fair_deck_deck_pass new_deck shuffle σ _ (mkDeck p) l Hrun Hl).
  rewrite Hperm. apply full_deck_NoDup.
Qed.

(** X12: [add_card] takes a card the deck already holds; the guard around
    such a call then raises, naming exactly that card, and the card stays
    added (the store is the one [add_card] left).  A card the deck does not
    hold yet passes. *)
Theorem fair_deck_after_add_card `{PyHash}
  (self : Deck) (card : Card) (σ : state) (l : list Card) :
  heap σ !! _cards self = Some l ->
  NoDup l ->
  let σ' := mkState (<[_cards self := l ++ [card]]> (heap σ)) (rng σ) in
  (card ∈ l ->
   fair_deck add_to_deck (self, card) σ
   = (Raise (DeckCheatingError
               ("Cheating detected: duplicate card "
                +:+ Card_get_display_name card)), σ')) /\
  (card ∉ l ->
   fair_deck add_to_deck (self, card) σ = (Ret (PyDeck self), σ')).
Proof.
  intros Hp Hnd σ'.
  assert (add_to_deck (self, card) σ = (Ret (PyDeck self), σ')) as Hrun
    by (unfold add_to_deck, bind; simpl; by rewrite (Deck_add_card_Some _ _ l)).
  assert (heap σ' !! _cards self = Some (l ++ [card])) as Hl
    by apply lookup_insert_eq.
  split.
  - intros Hin. unfold fair_deck, bind at 1. rewrite Hrun.
    unfold Deck___iter__, bind. rewrite (list_read_Some _ _ _ Hl).
    by rewrite (fair_deck_loop_first_repeat l [] card [] σ').
  - intros Hnin.
    apply (fair_deck_deck_pass add_to_deck (self, card) σ σ' self _ Hrun Hl).
    apply NoDup_app. repeat split; [done | | apply NoDup_singleton].
    intros x Hx ->%list_elem_of_singleton. contradiction.
Qed.

Lemma fair_deck_after_add_card_witness :
  let l := [mkCard HEARTS KING; mkCard SPADES ACE] in
  let σ := mkState {[ 1%positive := l ]} (fun _ => 0%nat) in
  let σ' := mkState (<[1%positive := l ++ [mkCard HEARTS KING]]> (heap σ)) (rng σ) in
  fair_deck (H := sample_hash) add_to_deck (mkDeck 1, mkCard HEARTS KING) σ
  = (Raise (DeckCheatingError
              ("Cheating detected: duplicate card "
               +:+ Card_get_display_name (mkCard HEARTS KING))), σ').
Proof.
  intros l σ σ'.
  apply (proj1 (@fair_deck_after_add_card sample_hash (mkDeck 1)
                  (mkCard HEARTS KING) σ l eq_refl
                  ltac:(apply (bool_decide_unpack _); by vm_compute))).
  apply (bool_decide_unpack _). by vm_compute.
Defined.

(** ** [max] and [min] do not depend on the order of the deck *)

Lemma builtin_max_perm (l l' : list Card) :
  l ≡ₚ l' -> builtin_max l = builtin_max l'.
Proof.
  intros Hperm. unfold builtin_max, min_max.
  destruct l as [| a l]; destruct l' as [| a' l'].
  - reflexivity.
  - apply Permutation_length in Hperm. discriminate.
  - apply Permutation_length in Hperm. discriminate.
  - destruct (min_max_loop_gt l a) as (m & -> & Hin & Hmax).
    destruct (min_max_loop_gt l' a') as (m' & -> & Hin' & Hmax').
    do 2 f_equal. apply card_key_inj. apply Z.le_antisymm.
    + apply Hmax'. by rewrite <- Hperm.
    + apply Hmax. by rewrite Hperm.
Qed.

Lemma builtin_min_perm (l l' : list Card) :
  l ≡ₚ l' -> builtin_min l = builtin_min l'.
Proof.
  intros Hperm. unfold builtin_min, min_max.
  destruct l as [| a l]; destruct l' as [| a' l'].
  - reflexivity.
  - apply Permutation_length in Hperm. discriminate.
  - apply Permutation_length in Hperm. discriminate.
  - destruct (min_max_loop_lt l a) as (m & -> & Hin & Hmin).
    destruct (min_max_loop_lt l' a') as (m' & -> & Hin' & Hmin').
    do 2 f_equal. apply card_key_inj. apply Z.le_antisymm.
    + apply Hmin. by rewrite Hperm.
    + apply Hmin'. by rewrite <- Hperm.
Qed.

(** X13: shuffling changes neither [max()] nor [min()]: after [shuffle()],
    for every stream of random draws, both return what they returned
    before. *)
Theorem Deck_shuffle_keeps_extremes (self : Deck) (σ : state) (l : list Card) :
  heap σ !! _cards self = Some l ->
  exists σ' : state,
    Deck_shuffle self σ = (Ret tt, σ') /\
    fst (Deck_max self σ') = fst (Deck_max self σ) /\
    fst (Deck_min self σ') = fst (Deck_min self σ).
Proof.
  intros Hp.
  destruct (Deck_shuffle_perm self σ l Hp) as (l' & g & Hrun & Hperm).
  eexists. split; [exact Hrun |].
  unfold Deck_max, Deck_min, bind, lift.
  rewrite (list_read_Some _ σ l Hp).
  rewrite (list_read_Some _ _ l' (lookup_insert_eq _ _ _)). simpl.
  split; [by apply builtin_max_perm | by apply builtin_min_perm].
Qed.

Lemma Deck_shuffle_keeps_extremes_witness :
  let l := [mkCard HEARTS KING; mkCard SPADES ACE; mkCard CLUBS TWO] in
  let σ := mkState {[ 1%positive := l ]} (fun k => (2 * k + 1)%nat) in
  exists σ' : state,
    Deck_shuffle (mkDeck 1) σ = (Ret tt, σ') /\
    fst (Deck_max (mkDeck 1) σ') = fst (Deck_max (mkDeck 1) σ) /\
    fst (Deck_min (mkDeck 1) σ') = fst (Deck_min (mkDeck 1) σ).
Proof.
  intros l σ. apply (Deck_shuffle_keeps_extremes (mkDeck 1) σ l). reflexivity.
Defined.

Lemma card_key_min (c : Card) : card_key (mkCard SPADES TWO) <= card_key c.
Proof. destruct c as [[] []]; unfold card_key; simpl; lia. Qed.

(** X14: on a deck that holds the 52 cards in any order, [min()] is the Two
    of Spades, and the deck is left as it was. *)
Theorem Deck_min_of_full_deck (self : Deck) (σ : state) (l : list Card) :
  heap σ !! _cards self = Some l ->
  l ≡ₚ full_deck ->
  Deck_min self σ = (Ret (Some (mkCard SPADES TWO)), σ).
Proof.
  intros Hp Hperm.
  assert (l ≠ []) as Hne.
  { intros ->. apply Permutation_length in Hperm. discriminate. }
  destruct (Deck_min_Some self σ l Hp Hne) as (lo & Hmin & Hlo & Hge).
  rewrite Hmin. do 3 f_equal.
  apply card_key_inj. apply Z.le_antisymm; [| apply card_key_min].
  apply Hge. rewrite Hperm. apply full_deck_complete.
Qed.

Lemma Deck_min_of_full_deck_witness :
  let σ := mkState {[ 1%positive := reverse full_deck ]} (fun _ => 0%nat) in
  Deck_min (mkDeck 1) σ = (Ret (Some (mkCard SPADES TWO)), σ).
Proof.
  intros σ.
  apply (Deck_min_of_full_deck (mkDeck 1) σ (reverse full_deck) eq_refl).
  apply reverse_Permutation.
Defined.

(** ** Lists that belong to someone else *)

Lemma Deck_draw_frame (self : Deck) (σ : state) (q : loc) :
  q ≠ _cards self -> heap (snd (Deck_draw self σ)) !! q = heap σ !! q.
Proof.
  intros Hq. destruct (heap σ !! _cards self) as [[| c rest] |] eqn:Hp.
  - by rewrite (Deck_draw_nil self σ Hp).
  - rewrite (Deck_draw_cons self σ c rest Hp). simpl. by rewrite lookup_insert_ne.
  - unfold Deck_draw, list___bool__, bind, list_read. by rewrite Hp.
Qed.

Lemma Deck_add_card_frame (self : Deck) (card : Card) (σ : state) (q : loc) :
  q ≠ _cards self -> heap (snd (Deck_add_card self card σ)) !! q = heap σ !! q.
Proof. intros Hq. by apply (run_list_op_frame _ q (op_append card)). Qed.

Lemma Deck_shuffle_frame (self : Deck) (σ : state) (l : list Card) (q : loc) :
  heap σ !! _cards self = Some l ->
  q ≠ _cards self -> heap (snd (Deck_shuffle self σ)) !! q = heap σ !! q.
Proof.
  intros Hp Hq. destruct (Deck_shuffle_perm self σ l Hp) as (l' & g & -> & _).
  simpl. by rewrite lookup_insert_ne.
Qed.

Lemma Deck_draw_times_frame (self : Deck) (k : nat) (σ : state) (l : list Card) (q : loc) :
  heap σ !! _cards self = Some l ->
  q ≠ _cards self -> heap (snd (Deck_draw_times self k σ)) !! q = heap σ !! q.
Proof.
  intros Hp Hq. rewrite (Deck_draw_times_run self k σ l Hp).
  simpl. by rewrite lookup_insert_ne.
Qed.

(** X15: the list [cards] returns is a snapshot: drawing from the deck,
    adding to it or shuffling it afterwards leaves the returned list with
    the cards and the order the deck had when it was taken. *)
Theorem Deck_cards_is_snapshot (self : Deck) (σ : state) (l : list Card) :
  heap σ !! _cards self = Some l ->
  exists (q : loc) (σ1 : state),
    Deck_cards self σ = (Ret q, σ1) /\
    heap σ1 !! q = Some l /\
    heap (snd (Deck_draw self σ1)) !! q = Some l /\
    (forall k : nat, heap (snd (Deck_draw_times self k σ1)) !! q = Some l) /\
    (forall card : Card, heap (snd (Deck_add_card self card σ1)) !! q = Some l) /\
    heap (snd (Deck_shuffle self σ1)) !! q = Some l.
Proof.
  intros Hp.
  destruct (list_copy_fresh _ σ l Hp) as [Hrun Hfresh].
  set (q := fresh (dom (heap σ))) in *.
  set (σ1 := mkState (<[q:=l]> (heap σ)) (rng σ)) in *.
  assert (q ≠ _cards self) as Hq by (intros Heq; rewrite Heq in Hfresh; congruence).
  assert (heap σ1 !! q = Some l) as Hl by apply lookup_insert_eq.
  assert (heap σ1 !! _cards self = Some l) as Hp1
    by (simpl; by rewrite lookup_insert_ne).
  exists q, σ1. split; [exact Hrun |]. split; [exact Hl |].
  split; [by rewrite Deck_draw_frame |].
  split; [intros k; by rewrite (Deck_draw_times_frame self k σ1 l) |].
  split; [intros card; by rewrite Deck_add_card_frame |].
  by rewrite (Deck_shuffle_frame self σ1 l).
Qed.

Lemma Deck_cards_is_snapshot_witness :
  let l := [mkCard HEARTS KING; mkCard SPADES ACE] in
  let σ := mkState {[ 1%positive := l ]} (fun _ => 0%nat) in
  exists (q : loc) (σ1 : state),
    Deck_cards (mkDeck 1) σ = (Ret q, σ1) /\
    heap σ1 !! q = Some l /\
    heap (snd (Deck_draw (mkDeck 1) σ1)) !! q = Some l /\
    (forall k : nat, heap (snd (Deck_draw_times (mkDeck 1) k σ1)) !! q = Some l) /\
    (forall card : Card,
        heap (snd (Deck_add_card (mkDeck 1) card σ1)) !! q = Some l) /\
    heap (snd (Deck_shuffle (mkDeck 1) σ1)) !! q = Some l.
Proof.
  intros l σ. apply (Deck_cards_is_snapshot (mkDeck 1) σ l). reflexivity.
Defined.

(** X16: every [Deck(...)] owns a list of its own: constructing a deck
    leaves every list that existed before untouched, two decks constructed
    one after the other hold different lists, and drawing from, adding to or
    shuffling the second one leaves the first one as it was. *)
Theorem Deck_objects_independent (shuffle1 shuffle2 : bool) (σ : state) :
  exists (d1 d2 : Deck) (σ1 σ2 : state) (l1 l2 : list Card),
    Deck___init__ shuffle1 σ = (Ret d1, σ1) /\
    Deck___init__ shuffle2 σ1 = (Ret d2, σ2) /\
    _cards d1 ≠ _cards d2 /\
    heap σ1 !! _cards d1 = Some l1 /\
    heap σ2 !! _cards d1 = Some l1 /\
    heap σ2 !! _cards d2 = Some l2 /\
    (forall (q : loc) (l : list Card),
        heap σ !! q = Some l -> heap σ2 !! q = Some l) /\
    (forall k : nat, heap (snd (Deck_draw_times d2 k σ2)) !! _cards d1 = Some l1) /\
    (forall card : Card,
        heap (snd (Deck_add_card d2 card σ2)) !! _cards d1 = Some l1) /\
    heap (snd (Deck_shuffle d2 σ2)) !! _cards d1 = Some l1.
Proof.
  destruct (Deck_init_shape shuffle1 σ) as (l1 & g1 & Hinit1 & _).
  set (p1 := fresh (dom (heap σ))) in *.
  set (σ1 := mkState (<[p1:=l1]> (heap σ)) g1) in *.
  destruct (Deck_init_shape shuffle2 σ1) as (l2 & g2 & Hinit2 & _).
  set (p2 := fresh (dom (heap σ1))) in *.
  set (σ2 := mkState (<[p2:=l2]> (heap σ1)) g2) in *.
  assert (heap σ1 !! p1 = Some l1) as H1 by apply lookup_insert_eq.
  assert (p1 ≠ p2) as Hne.
  { intros Heq. pose proof (fresh_loc_unused σ1) as Hfresh. fold p2 in Hfresh.
    rewrite <- Heq in Hfresh. congruence. }
  assert (heap σ2 !! p1 = Some l1) as H21
    by (simpl; rewrite lookup_insert_ne by done; apply lookup_insert_eq).
  assert (heap σ2 !! p2 = Some l2) as H22 by apply lookup_insert_eq.
  exists (mkDeck p1), (mkDeck p2), σ1, σ2, l1, l2.
  repeat (split; [assumption |]).
  split.
  { intros q l Hq. simpl.
    assert (q ≠ p1).
    { intros ->. pose proof (fresh_loc_unused σ) as Hfresh. fold p1 in Hfresh.
      congruence. }
    assert (q ≠ p2).
    { intros ->. pose proof (fresh_loc_unused σ1) as Hfresh. fold p2 in Hfresh.
      simpl in Hfresh. rewrite lookup_insert_ne in Hfresh by done. congruence. }
    by rewrite !lookup_insert_ne. }
  split; [intros k; by rewrite (Deck_draw_times_frame (mkDeck p2) k σ2 l2) |].
  split; [intros card; by rewrite Deck_add_card_frame |].
  by rewrite (Deck_shuffle_frame (mkDeck p2) σ2 l2).
Qed.

(** ** A non-card on the left of a comparison *)

(** X17: with [None], an [int] or a [Deck] on the left and a card on the
    right, the card's methods are asked as the reflected ones and decline in
    the same way: [x == card] is [False], [x < card] and [x > card] raise
    [TypeError]. *)
Theorem non_card_on_the_left (c : Card) (other : PyObj) :
  (forall c' : Card, other ≠ PyCard c') ->
  do_richcompare OpEq other (PyCard c) = Ret false /\
  do_richcompare OpLt other (PyCard c) = Raise TypeError /\
  do_richcompare OpGt other (PyCard c) = Raise TypeError.
Proof.
  intros Hother. destruct other as [| z | c' | d]; try by repeat split.
  by destruct (Hother c').
Qed.

Lemma non_card_on_the_left_witness :
  do_richcompare OpEq (PyInt 5) (PyCard (mkCard SPADES ACE)) = Ret false /\
  do_richcompare OpLt (PyInt 5) (PyCard (mkCard SPADES ACE)) = Raise TypeError /\
  do_richcompare OpGt (PyInt 5) (PyCard (mkCard SPADES ACE)) = Raise TypeError.
Proof.
  apply (non_card_on_the_left (mkCard SPADES ACE) (PyInt 5)).
  intros c' Heq. discriminate Heq.
Defined.

(** ** The deck as a queue *)

(** X18: a card added to a deck of [n] cards comes out last: [n + 1] draws
    after [add_card(card)] return the [n] cards the deck held, in their
    order, and then the added card, and leave the deck empty. *)
Theorem Deck_add_then_draw_all
  (self : Deck) (σ : state) (l : list Card) (card : Card) :
  heap σ !! _cards self = Some l ->
  exists σ1 σ2 : state,
    Deck_add_card self card σ = (Ret tt, σ1) /\
    Deck_draw_times self (S (length l)) σ1
    = (Ret (Some <$> (l ++ [card])), σ2) /\
    heap σ2 !! _cards self = Some [] /\
    Deck_draw self σ2 = (Ret None, σ2).
Proof.
  intros Hp.
  set (σ1 := mkState (<[_cards self := l ++ [card]]> (heap σ)) (rng σ)).
  assert (heap σ1 !! _cards self = Some (l ++ [card])) as Hp1
    by apply lookup_insert_eq.
  assert (length (l ++ [card]) = S (length l)) as Hlen
    by (rewrite length_app; simpl; lia).
  exists σ1. eexists. split; [by apply Deck_add_card_Some |].
  assert (Deck_draw_times self (S (length l)) σ1
          = (Ret (Some <$> (l ++ [card])),
             mkState (<[_cards self := []]> (heap σ1)) (rng σ1))) as Hrun.
  { rewrite (Deck_draw_times_run self _ σ1 _ Hp1).
    rewrite take_ge, drop_ge by lia.
    rewrite Hlen, Nat.sub_diag. simpl. by rewrite app_nil_r. }
  split; [exact Hrun |].
  assert (heap (mkState (<[_cards self := []]> (heap σ1)) (rng σ1))
            !! _cards self = Some []) as Hp2 by apply lookup_insert_eq.
  split; [exact Hp2 | by apply Deck_draw_nil].
Qed.

Lemma Deck_add_then_draw_all_witness :
  let l := [mkCard HEARTS KING; mkCard SPADES ACE] in
  let σ := mkState {[ 1%positive := l ]} (fun _ => 0%nat) in
  exists σ1 σ2 : state,
    Deck_add_card (mkDeck 1) (mkCard CLUBS TWO) σ = (Ret tt, σ1) /\
    Deck_draw_times (mkDeck 1) (S (length l)) σ1
    = (Ret (Some <$> (l ++ [mkCard CLUBS TWO])), σ2) /\
    heap σ2 !! 1%positive = Some [] /\
    Deck_draw (mkDeck 1) σ2 = (Ret None, σ2).
Proof.
  intros l σ.
  apply (Deck_add_then_draw_all (mkDeck 1) σ l (mkCard CLUBS TWO)). reflexivity.
Defined.
